(** * Subtitle-Processor: the ASS style patcher, format detection,
      the processor factory and the processing pipeline

    A shallow embedding of

    - [src/subtitle_processor.py]: [load_style_config],
      [detect_subtitle_format], [create_ass_style_line],
      [apply_styling_from_config];
    - [src/video/video_processor_factory.py]: [register_processor],
      [get_processor], [can_process];
    - [src/video/mkv_processor.py]: [get_supported_extensions],
      [get_subtitle_tracks];
    - [src/video/universal_video_processor.py]: [check_tools_available];
    - [src/aegisub_processor.py], [src/file_utils.py], [src/gui.py]: the
      launcher, the temporary directory and output paths, the queue;
    - [main.py]: [process_video_file], [main].

    Files are read and written in text mode: what is read has CRLF and
    CR turned into LF, what is written has LF turned into [os.linesep].

    Python [str] values are modelled as [string]; a character is a code
    point below 256, which is where [str.isspace], [str.lower] and the
    regular expression class [\d] are given below. *)

From Stdlib Require Import ZArith List String Ascii Bool Lia DecimalString.
Import ListNotations.
Open Scope string_scope.

(* ================================================================= *)
(** ** Python [str] operations used by the program *)

Module PyStr.

Definition nl : ascii := "010"%char.

(** [str.isspace] on one character (code points below 256): TAB..CR,
    FS..US, SPACE, NEL and NBSP. *)
Definition isspace (c : ascii) : bool :=
  let n := nat_of_ascii c in
  (((9 <=? n) && (n <=? 13)) || ((28 <=? n) && (n <=? 32))
   || (n =? 133) || (n =? 160))%nat.

Fixpoint lstrip (s : string) : string :=
  match s with
  | EmptyString => EmptyString
  | String c r => if isspace c then lstrip r else s
  end.

Fixpoint rstrip (s : string) : string :=
  match s with
  | EmptyString => EmptyString
  | String c r =>
      match rstrip r with
      | EmptyString => if isspace c then EmptyString else String c EmptyString
      | String d r' => String c (String d r')
      end
  end.

(** [s.strip()] *)
Definition strip (s : string) : string := rstrip (lstrip s).

(** [s.startswith(p)] *)
Definition startswith (s p : string) : bool := String.prefix p s.

(** [s.endswith(p)] *)
Fixpoint endswith (s p : string) : bool :=
  String.eqb s p ||
  match s with
  | EmptyString => false
  | String _ r => endswith r p
  end.

(** [p in s] *)
Fixpoint contains (p s : string) : bool :=
  String.prefix p s ||
  match s with
  | EmptyString => false
  | String _ r => contains p r
  end.

(** [s.split('\n')] *)
Fixpoint split_nl (s : string) : list string :=
  match s with
  | EmptyString => [EmptyString]
  | String c r =>
      if Ascii.eqb c nl then EmptyString :: split_nl r
      else match split_nl r with
           | [] => [String c EmptyString]
           | l :: ls => String c l :: ls
           end
  end.

(** ['\n'.join(lines)] *)
Definition join_nl (lines : list string) : string :=
  String.concat (String nl EmptyString) lines.

(** [c.lower()] on one character: A-Z and the Latin-1 capitals
    (U+00C0..U+00DE without the multiplication sign U+00D7). *)
Definition lower_char (c : ascii) : ascii :=
  let n := nat_of_ascii c in
  if (((65 <=? n) && (n <=? 90))
      || ((192 <=? n) && (n <=? 222) && negb (n =? 215)))%nat
  then ascii_of_nat (n + 32) else c.

Fixpoint map_str (f : ascii -> ascii) (s : string) : string :=
  match s with
  | EmptyString => EmptyString
  | String c r => String (f c) (map_str f r)
  end.

(** [s.lower()] *)
Definition lower (s : string) : string := map_str lower_char s.

Definition has_nl (s : string) : bool := contains (String nl EmptyString) s.

End PyStr.

(* ================================================================= *)
(** ** Style configuration values and [create_ass_style_line] *)

Module Style.
Import PyStr.

(** A value of the style dictionary, as [json.load] or the command line
    produces it.  [PText] stands for any other value (a float, a list, a
    nested object), carried as the text [str()] gives for it. *)
Inductive pyval : Type :=
| PNone
| PBool (b : bool)
| PInt (z : Z)
| PStr (s : string)
| PText (rendering : string).

(** [f"{v}"], that is [str(v)]. *)
Definition py_str (v : pyval) : string :=
  match v with
  | PNone => "None"
  | PBool true => "True"
  | PBool false => "False"
  | PInt z => NilZero.string_of_int (Z.to_int z)
  | PStr s => s
  | PText t => t
  end.

(** The style dictionary: keys in insertion order, looked up by key. *)
Definition style_dict : Type := list (string * pyval).

(** [d.get(key, default)] *)
Fixpoint dict_get (d : style_dict) (key : string) (default : pyval) : pyval :=
  match d with
  | [] => default
  | (k, v) :: d' => if String.eqb k key then v else dict_get d' key default
  end.

Definition dict_mem (d : style_dict) (key : string) : bool :=
  existsb (fun kv => String.eqb (fst kv) key) d.

(** [SubtitleProcessor.create_ass_style_line] *)
Definition create_ass_style_line (style_config : style_dict)
                                 (style_name : string) : string :=
  let style_line := "Style: " ++ style_name ++ "," in
  let style_line := style_line ++ py_str (dict_get style_config "font_name" (PStr "Arial")) ++ "," in
  let style_line := style_line ++ py_str (dict_get style_config "font_size" (PInt 20)) ++ "," in
  let style_line := style_line ++ py_str (dict_get style_config "primary_color" (PStr "&H00FFFFFF")) ++ "," in
  let style_line := style_line ++ py_str (dict_get style_config "secondary_color" (PStr "&H000000FF")) ++ "," in
  let style_line := style_line ++ py_str (dict_get style_config "outline_color" (PStr "&H00000000")) ++ "," in
  let style_line := style_line ++ py_str (dict_get style_config "back_color" (PStr "&H80000000")) ++ "," in
  let style_line := style_line ++ py_str (dict_get style_config "bold" (PInt 0)) ++ "," in
  let style_line := style_line ++ py_str (dict_get style_config "italic" (PInt 0)) ++ "," in
  let style_line := style_line ++ "0,0,100,100,0,0,1," in
  let style_line := style_line ++ py_str (dict_get style_config "outline" (PInt 2)) ++ "," in
  let style_line := style_line ++ py_str (dict_get style_config "shadow" (PInt 0)) ++ "," in
  let style_line := style_line ++ py_str (dict_get style_config "alignment" (PInt 2)) ++ "," in
  let style_line := style_line ++ py_str (dict_get style_config "margin_left" (PInt 10)) ++ "," in
  let style_line := style_line ++ py_str (dict_get style_config "margin_right" (PInt 10)) ++ "," in
  let style_line := style_line ++ py_str (dict_get style_config "margin_vertical" (PInt 10)) ++ "," in
  let style_line := style_line ++ "1" in
  style_line.

(** The field of the style line the specification documents for [key]:
    the configured value as text, or the stated default when the key is
    absent. *)
Definition field (style_config : style_dict) (key default : string) : string :=
  if dict_mem style_config key
  then py_str (dict_get style_config key PNone)
  else default.

(** The 23 fields of the specification, in its order. *)
Definition documented_fields (style_config : style_dict)
                             (style_name : string) : list string :=
  [ style_name;
    field style_config "font_name" "Arial";
    field style_config "font_size" "20";
    field style_config "primary_color" "&H00FFFFFF";
    field style_config "secondary_color" "&H000000FF";
    field style_config "outline_color" "&H00000000";
    field style_config "back_color" "&H80000000";
    field style_config "bold" "0";
    field style_config "italic" "0";
    "0"; "0"; "100"; "100";
    "0"; "0"; "1";
    field style_config "outline" "2";
    field style_config "shadow" "0";
    field style_config "alignment" "2";
    field style_config "margin_left" "10";
    field style_config "margin_right" "10";
    field style_config "margin_vertical" "10";
    "1" ].

(** *** [apply_styling_from_config] *)

Definition v4_styles_header : string := "[V4+ Styles]".

(** The variables of the main loop. *)
Record loop_state : Type := mk_loop_state {
  new_lines : list string;
  in_v4_styles : bool;
  style_format_found : bool;
  default_style_replaced : bool
}.

Definition initial_state : loop_state :=
  mk_loop_state [] false false false.

(** One iteration of [for line in lines] (the log calls are left out). *)
Definition loop_body (style_config : style_dict)
                     (st : loop_state) (line : string) : loop_state :=
  if String.eqb (strip line) v4_styles_header then
    (* entering the styles section; [continue] *)
    mk_loop_state (new_lines st ++ [line]) true
                  (style_format_found st) (default_style_replaced st)
  else
    let in_v4 :=
      if startswith line "[" && endswith line "]"
         && negb (String.eqb (strip line) v4_styles_header)
      then false else in_v4_styles st in
    if in_v4 then
      if startswith line "Format:" then
        mk_loop_state (new_lines st ++ [line]) in_v4 true
                      (default_style_replaced st)
      else if startswith line "Style:" && contains "Default" line
              && negb (default_style_replaced st) then
        mk_loop_state
          (new_lines st ++ [create_ass_style_line style_config "Default"])
          in_v4 (style_format_found st) true
      else if startswith line "Style:" then
        mk_loop_state (new_lines st ++ [line]) in_v4
                      (style_format_found st) (default_style_replaced st)
      else
        mk_loop_state (new_lines st ++ [line]) in_v4
                      (style_format_found st) (default_style_replaced st)
    else
      mk_loop_state (new_lines st ++ [line]) in_v4
                    (style_format_found st) (default_style_replaced st).

Definition main_loop (style_config : style_dict)
                     (lines : list string) : loop_state :=
  fold_left (loop_body style_config) lines initial_state.

(** The inner [while] loop, entered with [section_start = k - 1]; [None]
    is the exit with [section_start = -1]. *)
Fixpoint find_section_start (lines : list string) (k : nat) : option nat :=
  match k with
  | O => None
  | S j =>
      if String.eqb (strip (nth j lines EmptyString)) v4_styles_header
      then Some j
      else find_section_start lines j
  end.

(** [l.insert(i, x)] *)
Definition list_insert (i : nat) (x : string) (l : list string) : list string :=
  firstn i l ++ x :: skipn i l.

(** [for i, line in enumerate(new_lines)], with [rest] the lines not yet
    visited and [i] the index of the first of them. *)
Fixpoint insert_loop (style_config : style_dict) (lines rest : list string)
                     (i : nat) : list string :=
  match rest with
  | [] => lines
  | line :: rest' =>
      if startswith line "Format:" && (0 <? i)%nat then
        match find_section_start lines i with
        | Some _ =>
            (* insert after the Format line; [break] *)
            list_insert (i + 1) (create_ass_style_line style_config "Default") lines
        | None => insert_loop style_config lines rest' (S i)
        end
      else insert_loop style_config lines rest' (S i)
  end.

(** The list that is joined and written back. *)
Definition styled_lines (style_config : style_dict)
                        (lines : list string) : list string :=
  let st := main_loop style_config lines in
  if negb (default_style_replaced st) && style_format_found st
  then insert_loop style_config (new_lines st) (new_lines st) 0
  else new_lines st.

(** The text written back for the text read. *)
Definition styled_content (content : string) (style_config : style_dict) : string :=
  join_nl (styled_lines style_config (split_nl content)).

(** Files by path; a file is the text [f.read()] returns. *)
Definition file_system : Type := string -> option string.

(** *** The file in text mode *)










End Style.

(* ================================================================= *)
(** ** Regular expressions, as far as [re.search] is used *)

Module Regex.

Inductive re : Type :=
| Void
| Eps
| Class (p : ascii -> bool)
| Cat (a b : re)
| Alt (a b : re)
| Star (a : re).

Fixpoint nullable (r : re) : bool :=
  match r with
  | Void => false
  | Eps => true
  | Class _ => false
  | Cat a b => nullable a && nullable b
  | Alt a b => nullable a || nullable b
  | Star _ => true
  end.

Fixpoint deriv (c : ascii) (r : re) : re :=
  match r with
  | Void => Void
  | Eps => Void
  | Class p => if p c then Eps else Void
  | Cat a b =>
      if nullable a then Alt (Cat (deriv c a) b) (deriv c b)
      else Cat (deriv c a) b
  | Alt a b => Alt (deriv c a) (deriv c b)
  | Star a => Cat (deriv c a) (Star a)
  end.

(** Does the pattern match at the start of [s] ([re.match])? *)
Fixpoint match_here (r : re) (s : string) : bool :=
  nullable r ||
  match s with
  | EmptyString => false
  | String c t => match_here (deriv c r) t
  end.

(** Does the pattern match at some position of [s] (truth value of
    [re.search])? *)
Fixpoint search (r : re) (s : string) : bool :=
  match_here r s ||
  match s with
  | EmptyString => false
  | String _ t => search r t
  end.

(** The words of a pattern. *)
Inductive Matches : re -> string -> Prop :=
| MEps : Matches Eps EmptyString
| MClass p c : p c = true -> Matches (Class p) (String c EmptyString)
| MCat a b s t : Matches a s -> Matches b t -> Matches (Cat a b) (s ++ t)
| MAltL a b s : Matches a s -> Matches (Alt a b) s
| MAltR a b s : Matches b s -> Matches (Alt a b) s
| MStarNil a : Matches (Star a) EmptyString
| MStarApp a s t : Matches a s -> Matches (Star a) t -> Matches (Star a) (s ++ t).

(** [\d] on code points below 256 *)
Definition digit (c : ascii) : bool :=
  let n := nat_of_ascii c in ((48 <=? n) && (n <=? 57))%nat.

Definition d : re := Class digit.

Definition chr (c : ascii) : re := Class (fun x => Ascii.eqb x c).

Fixpoint lit (s : string) : re :=
  match s with
  | EmptyString => Eps
  | String c t => Cat (chr c) (lit t)
  end.

Definition plus (r : re) : re := Cat r (Star r).

Fixpoint seq (rs : list re) : re :=
  match rs with
  | [] => Eps
  | r :: rs' => Cat r (seq rs')
  end.

End Regex.

(* ================================================================= *)
(** ** [detect_subtitle_format] *)

Module Detect.
Import PyStr Regex.

(** [\d{2}:\d{2}:\d{2},\d{3}] *)
Definition timestamp : re :=
  seq [d; d; chr ":"; d; d; chr ":"; d; d; chr ","; d; d; d].

(** [\d+\n\d{2}:\d{2}:\d{2},\d{3} --> \d{2}:\d{2}:\d{2},\d{3}] *)
Definition srt_pattern : re :=
  seq [plus d; chr nl; timestamp; lit " --> "; timestamp].

(** The body of the [try], on the text read. *)
Definition detect_content (content : string) : string :=
  if contains "[Script Info]" content then "ass"
  else if startswith (strip content) "WEBVTT" then "vtt"
  else if search srt_pattern content then "srt"
  else "unknown".

(** [SubtitleProcessor.detect_subtitle_format]; decoding never fails
    ([errors='ignore']), a file that cannot be opened is the [except]
    branch. *)
Definition detect_subtitle_format (fs : Style.file_system)
                                  (subtitle_path : string) : string :=
  match fs subtitle_path with
  | Some content => detect_content content
  | None => "unknown"
  end.

End Detect.

(* ================================================================= *)
(** ** The processor factory *)

Module Factory.
Import PyStr.

(** A processor instance: its class and the extensions it reports. *)
Record processor : Type := mk_processor {
  class_name : string;
  get_supported_extensions : list string
}.

(** [MKVProcessor()] *)
Definition MKVProcessor : processor := mk_processor "MKVProcessor" [".mkv"].

(** [self._processors]: a dict from extension to processor. *)
Definition registry : Type := list (string * processor).

(** [d[k] = v] *)
Fixpoint dict_set (reg : registry) (k : string) (v : processor) : registry :=
  match reg with
  | [] => [(k, v)]
  | (k', v') :: reg' =>
      if String.eqb k' k then (k', v) :: reg'
      else (k', v') :: dict_set reg' k v
  end.

(** [d.get(k)] *)
Fixpoint dict_lookup (reg : registry) (k : string) : option processor :=
  match reg with
  | [] => None
  | (k', v) :: reg' => if String.eqb k' k then Some v else dict_lookup reg' k
  end.

(** [VideoProcessorFactory.register_processor] *)
Definition register_processor (reg : registry) (p : processor) : registry :=
  fold_left (fun r ext => dict_set r ext p) (get_supported_extensions p) reg.

(** [VideoProcessorFactory.__init__] with [_register_default_processors] *)
Definition default_registry : registry := register_processor [] MKVProcessor.

(** [s.rfind(c)], [-1] when [c] does not occur *)
Fixpoint rfind (c : ascii) (s : string) : Z :=
  match s with
  | EmptyString => (-1)%Z
  | String x r =>
      let k := rfind c r in
      if (0 <=? k)%Z then (k + 1)%Z
      else if Ascii.eqb x c then 0%Z else (-1)%Z
  end.

(** [s[:k]] and [s[k:]] *)
Fixpoint take (k : nat) (s : string) : string :=
  match k, s with
  | S k', String c r => String c (take k' r)
  | _, _ => EmptyString
  end.

Fixpoint drop (k : nat) (s : string) : string :=
  match k, s with
  | S k', String _ r => drop k' r
  | _, _ => s
  end.

(** The [while filenameIndex < dotIndex] loop of [genericpath._splitext]:
    [true] when it returns from inside (a character that is not the
    extension separator stands before the last dot), with [n] the number
    of iterations left. *)
Fixpoint skip_leading_dots (p : string) (extsep : ascii)
                           (filenameIndex n : nat) : bool :=
  match n with
  | O => false
  | S n' =>
      match String.get filenameIndex p with
      | Some c =>
          if Ascii.eqb c extsep then
            skip_leading_dots p extsep (S filenameIndex) n'
          else true
      | None => true
      end
  end.

(** [genericpath._splitext(p, sep, altsep, extsep)] *)
Definition _splitext (p : string) (sep : ascii) (altsep : option ascii)
                     (extsep : ascii) : string * string :=
  let sepIndex := rfind sep p in
  let sepIndex :=
    match altsep with
    | Some a => Z.max sepIndex (rfind a p)
    | None => sepIndex
    end in
  let dotIndex := rfind extsep p in
  if (sepIndex <? dotIndex)%Z
     && skip_leading_dots p extsep (Z.to_nat (sepIndex + 1))
                          (Z.to_nat dotIndex - Z.to_nat (sepIndex + 1))
  then (take (Z.to_nat dotIndex) p, drop (Z.to_nat dotIndex) p)
  else (p, EmptyString).

(** The platform module behind [os.path]. *)
Inductive os_path : Type := posixpath | ntpath.

(** [os.path.splitext] *)
Definition splitext (os : os_path) (p : string) : string * string :=
  match os with
  | posixpath => _splitext p "/" None "."
  | ntpath => _splitext p "\" (Some "/"%char) "."
  end.

(** [VideoProcessorFactory.get_processor] *)
Definition get_processor (os : os_path) (reg : registry)
                         (file_path : string) : option processor :=
  let ext := lower (snd (splitext os file_path)) in
  dict_lookup reg ext.

(** [VideoProcessorFactory.can_process] *)
Definition can_process (os : os_path) (reg : registry)
                       (file_path : string) : bool :=
  match get_processor os reg file_path with
  | Some _ => true
  | None => false
  end.

(** Upper case of the letters a-z, the other characters unchanged. *)
Definition upper_char (c : ascii) : ascii :=
  let n := nat_of_ascii c in
  if ((97 <=? n) && (n <=? 122))%nat then ascii_of_nat (n - 32) else c.

Definition upper (s : string) : string := map_str upper_char s.

End Factory.

(* ================================================================= *)
(** ** Loading the style file and the processing pipeline *)

Module Pipeline.
Import PyStr Style Factory.

Inductive level : Type := DEBUG | INFO | WARNING | ERROR.

Definition log_record : Type := (level * string)%type.

(** What a call into a collaborator does: it returns, or it raises an
    exception (carried as its text). *)
Inductive outcome (A : Type) : Type :=
| Returns (a : A)
| Raises (e : string).
Arguments Returns {A} a.
Arguments Raises {A} e.

(** What [open(config_path)] does. *)
Inductive open_result : Type :=
| FileText (text : string)
| FileNotFoundError
| OtherOpenError (e : string).

(** A subtitle track as container analysis reports it. *)
Record track : Type := mk_track {
  id : Z;
  codec : string;
  language : string
}.

(** A value of a parsed configuration document, as far as the program
    looks at it: an object is carried as a style dictionary, a list by
    its length, a float by whether it is zero. *)
Inductive config_value : Type :=
| Dict (d : style_dict)
| NoneValue
| BoolValue (b : bool)
| IntValue (z : Z)
| FloatValue (nonzero : bool)
| StrValue (s : string)
| ListValue (len : nat).

(** What [json.load] returns: an object with its members, or a value of
    another type, named as Python names it ([list], [str], [int], ...). *)
Inductive document : Type :=
| Object (members : list (string * config_value))
| NotAnObject (type_name : string).

(** The collaborators of one run; [inl e] of [json_load] is
    [json.JSONDecodeError] with text [e]. *)
Record world : Type := mk_world {
  os : os_path;
  processors : registry;
  open_config : string -> open_result;
  json_load : string -> string + document;
  isfile : string -> bool;
  check_tools_available : outcome (list (string * bool));
  create_temp_directory : outcome string;
  generate_output_path : string -> outcome string;
  path_join : string -> string -> string;
  get_subtitle_tracks : string -> outcome (list track);
  extract_subtitle_track : string -> Z -> string -> outcome bool;
  extracted_files : file_system;
  convert_to_ass : string -> string -> outcome bool;
  aegisub_is_available : outcome bool;
  aegisub_open_for_styling : string -> outcome bool;
  press_enter : outcome unit;
  merge_video_with_subtitles : string -> string -> string -> outcome bool
}.

(** What a run does besides logging. *)
Inductive event : Type :=
| OpenedAegisub (subtitle : string)
| AppliedStyle (subtitle : string) (style_config : config_value)
| Merged (input_video subtitle output_video : string)
| CleanedUp.

Record run_state : Type := mk_run_state {
  log : list log_record;
  events : list event
}.

Definition say (lv : level) (msg : string) (st : run_state) : run_state :=
  mk_run_state (log st ++ [(lv, msg)]) (events st).

Definition emit (e : event) (st : run_state) : run_state :=
  mk_run_state (log st) (events st ++ [e]).

Definition str_of_nat (n : nat) : string := NilZero.string_of_uint (Nat.to_uint n).
Definition str_of_Z (z : Z) : string := NilZero.string_of_int (Z.to_int z).

(** [config.get('subtitle_style', {})] *)
Fixpoint get_subtitle_style (members : list (string * config_value))
  : config_value :=
  match members with
  | [] => Dict []
  | (k, v) :: rest =>
      if String.eqb k "subtitle_style" then v else get_subtitle_style rest
  end.

(** The truth value of a value: a dict, a string and a list are true
    when they are not empty, a number when it is not zero. *)
Definition truthy (v : config_value) : bool :=
  match v with
  | Dict [] => false
  | Dict (_ :: _) => true
  | NoneValue => false
  | BoolValue b => b
  | IntValue z => negb (Z.eqb z 0)
  | FloatValue nonzero => nonzero
  | StrValue EmptyString => false
  | StrValue (String _ _) => true
  | ListValue O => false
  | ListValue (S _) => true
  end.

(** [len(v)], or the text of the [TypeError] it raises. *)
Definition value_len (v : config_value) : string + nat :=
  match v with
  | Dict d => inr (List.length d)
  | StrValue s => inr (String.length s)
  | ListValue n => inr n
  | NoneValue => inl "object of type 'NoneType' has no len()"
  | BoolValue _ => inl "object of type 'bool' has no len()"
  | IntValue _ => inl "object of type 'int' has no len()"
  | FloatValue _ => inl "object of type 'float' has no len()"
  end.

(** [SubtitleProcessor.load_style_config] *)
Definition load_style_config (w : world) (config_path : string)
                             (st : run_state) : config_value * run_state :=
  match open_config w config_path with
  | FileText text =>
      match json_load w text with
      | inr (Object config) =>
          let style_config := get_subtitle_style config in
          if truthy style_config then
            match value_len style_config with
            | inr n =>
                (style_config,
                 say INFO ("Loaded style configuration with "
                           ++ str_of_nat n ++ " parameters") st)
            | inl e =>
                (* [len] raises: the last [except] branch *)
                (Dict [], say ERROR ("Failed to load style config: " ++ e) st)
            end
          else
            (style_config,
             say WARNING ("No 'subtitle_style' section found in " ++ config_path) st)
      | inr (NotAnObject type_name) =>
          (* [config.get] raises [AttributeError] *)
          (Dict [], say ERROR ("Failed to load style config: '" ++ type_name
                               ++ "' object has no attribute 'get'") st)
      | inl e =>
          (Dict [], say ERROR ("Invalid JSON in configuration file "
                               ++ config_path ++ ": " ++ e) st)
      end
  | FileNotFoundError =>
      (Dict [], say ERROR ("Configuration file not found: " ++ config_path) st)
  | OtherOpenError e =>
      (Dict [], say ERROR ("Failed to load style config: " ++ e) st)
  end.

(** Control flow inside the [try] block: go on, [return], or raise. *)
Inductive flow (A : Type) : Type :=
| Next (a : A)
| Return (b : bool)
| Raise (e : string).
Arguments Next {A} a.
Arguments Return {A} b.
Arguments Raise {A} e.

Definition M (A : Type) : Type := run_state -> flow A * run_state.

Definition ret {A} (a : A) : M A := fun st => (Next a, st).

Definition bind {A B} (m : M A) (k : A -> M B) : M B :=
  fun st =>
    match m st with
    | (Next a, st') => k a st'
    | (Return b, st') => (Return b, st')
    | (Raise e, st') => (Raise e, st')
    end.

Notation "x <- m ;; k" := (bind m (fun x => k))
  (at level 61, m at next level, right associativity).
Notation "m ;;; k" := (bind m (fun _ => k))
  (at level 61, right associativity).

Definition return_ {A} (b : bool) : M A := fun st => (Return b, st).

Definition call {A} (o : outcome A) : M A :=
  fun st => match o with
            | Returns a => (Next a, st)
            | Raises e => (Raise e, st)
            end.

Definition logger (lv : level) (msg : string) : M unit :=
  fun st => (Next tt, say lv msg st).

Definition does (e : event) : M unit :=
  fun st => (Next tt, emit e st).

Definition when_ (b : bool) (m : M unit) : M unit :=
  if b then m else ret tt.

(** The arguments of [process_video_file]. *)
Record arguments : Type := mk_arguments {
  input_video : string;
  output_video : option string;
  track_id : option Z;
  style_config : option config_value;
  style_config_file : option string;
  manual_styling : bool
}.

Definition nonempty (o : option string) : option string :=
  match o with
  | Some EmptyString => None
  | _ => o
  end.

(** The [try] block of [process_video_file], phase by phase.  Validation
    to conversion: the subtitle file to style and the output path. *)
Definition prepare_subtitle (w : world) (a : arguments) : M (string * string) :=
  (* validation *)
  when_ (negb (isfile w (input_video a)))
    (logger ERROR ("Input file not found: " ++ input_video a) ;;;
     return_ false) ;;;
  tools_status <- call (check_tools_available w) ;;
  when_ (negb (existsb snd tools_status))
    (logger ERROR "No video processing tools available" ;;;
     return_ false) ;;;
  when_ (negb (can_process (os w) (processors w) (input_video a)))
    (logger ERROR ("Unsupported file type: " ++ input_video a) ;;;
     return_ false) ;;;
  (* setup *)
  temp_dir <- call (create_temp_directory w) ;;
  output <- match nonempty (output_video a) with
            | Some o => ret o
            | None => call (generate_output_path w (input_video a))
            end ;;
  (* analysis *)
  subtitle_tracks <- call (get_subtitle_tracks w (input_video a)) ;;
  when_ (match subtitle_tracks with [] => true | _ => false end)
    (logger ERROR "No subtitle tracks found in video file" ;;;
     return_ false) ;;;
  selected_track <-
    match track_id a with
    | None =>
        match subtitle_tracks with
        | t :: _ =>
            logger INFO ("Auto-selected track " ++ str_of_Z (id t)) ;;;
            ret t
        | [] => fun st => (Raise "list index out of range", st)
        end
    | Some wanted =>
        match find (fun t => Z.eqb (id t) wanted) subtitle_tracks with
        | Some t => ret t
        | None =>
            logger ERROR ("Track " ++ str_of_Z wanted ++ " not found") ;;;
            return_ false
        end
    end ;;
  (* extraction *)
  let extracted_subtitle :=
    path_join w temp_dir ("extracted_" ++ str_of_Z (id selected_track) ++ ".ass") in
  extracted <- call (extract_subtitle_track w (input_video a)
                       (id selected_track) extracted_subtitle) ;;
  when_ (negb extracted) (return_ false) ;;;
  (* conversion *)
  let subtitle_format :=
    Detect.detect_subtitle_format (extracted_files w) extracted_subtitle in
  if String.eqb subtitle_format "ass" then ret (extracted_subtitle, output)
  else
    let ass_subtitle := path_join w temp_dir "converted.ass" in
    converted <- call (convert_to_ass w extracted_subtitle ass_subtitle) ;;
    when_ (negb converted) (return_ false) ;;;
    ret (ass_subtitle, output).

(** Styling, first half: [final_style_config]. *)
Definition resolve_style_config (w : world) (a : arguments)
  : M (option config_value) :=
  match nonempty (style_config_file a) with
  | Some file =>
      loaded <- (fun st => let (c, st') := load_style_config w file st in
                           (Next c, st')) ;;
      logger INFO ("Loaded style configuration from " ++ file) ;;;
      ret (Some loaded)
  | None =>
      match style_config a with
      | Some c => if truthy c then ret (Some c) else ret None
      | None => ret None
      end
  end.

(** Styling, second half, and merging.  The result of
    [apply_styling_from_config] is not looked at. *)
Definition style_and_merge (w : world) (a : arguments)
    (extracted_subtitle output : string)
    (final_style_config : option config_value) : M bool :=
  available <- (if manual_styling a then call (aegisub_is_available w)
                else ret false) ;;
  (if available then
     logger INFO "Opening Aegisub for manual styling..." ;;;
     does (OpenedAegisub extracted_subtitle) ;;;
     call (aegisub_open_for_styling w extracted_subtitle) ;;;
     call (press_enter w)
   else
     match final_style_config with
     | Some c =>
         if truthy c then does (AppliedStyle extracted_subtitle c) else ret tt
     | None => ret tt
     end) ;;;
  does (Merged (input_video a) extracted_subtitle output) ;;;
  success <- call (merge_video_with_subtitles w (input_video a)
                     extracted_subtitle output) ;;
  when_ success
    (logger INFO ("Successfully processed video: " ++ output)) ;;;
  ret success.

Definition process_body (w : world) (a : arguments) : M bool :=
  paths <- prepare_subtitle w a ;;
  final_style_config <- resolve_style_config w a ;;
  style_and_merge w a (fst paths) (snd paths) final_style_config.

(** The [except Exception] handler and the [finally] clean-up. *)
Definition handle_and_cleanup (r : flow bool * run_state) : bool * run_state :=
  let (result, st) :=
    match r with
    | (Next b, st) => (b, st)
    | (Return b, st) => (b, st)
    | (Raise e, st) => (false, say ERROR ("Processing failed: " ++ e) st)
    end in
  (result, emit CleanedUp st).

(** [UniversalSubtitleProcessor.process_video_file] *)
Definition process_video_file (w : world) (a : arguments)
                              (st : run_state) : bool * run_state :=
  handle_and_cleanup (process_body w a st).

End Pipeline.

(* ================================================================= *)
(** ** Notions used to state the properties *)

Module Notions.
Import PyStr Style.

(** [p] occurs in [s]. *)
Definition Substring (p s : string) : Prop :=
  exists pre post, s = pre ++ p ++ post.

(** [s] begins with [p]. *)
Definition StartsWith (s p : string) : Prop :=
  exists rest, s = p ++ rest.

(** Some part of [s] is a word of [r]. *)
Definition Found (r : Regex.re) (s : string) : Prop :=
  exists pre m post, s = pre ++ m ++ post /\ Regex.Matches r m.

(** The line opens the styles section. *)
Definition is_header (line : string) : bool :=
  String.eqb (strip line) v4_styles_header.

(** The line opens another section. *)
Definition closes_section (line : string) : bool :=
  startswith line "[" && endswith line "]" && negb (is_header line).

(** [in_v4_styles] once [line] has been looked at. *)
Definition in_section_after (inv : bool) (line : string) : bool :=
  if is_header line then true
  else if closes_section line then false
  else inv.

(** For each line, whether the loop treats it as inside the styles
    section; [inv] is the flag before the first line. *)
Fixpoint section_track (inv : bool) (lines : list string) : list bool :=
  match lines with
  | [] => []
  | line :: rest =>
      in_section_after inv line :: section_track (in_section_after inv line) rest
  end.









(** The loop takes [line], met inside the section, for a Format line. *)
Definition is_format (inv : bool) (line : string) : bool :=
  in_section_after inv line && negb (is_header line)
  && startswith line "Format:".

(** The loop takes [line], met inside the section, for the Default style. *)
Definition is_default_style (inv : bool) (line : string) : bool :=
  in_section_after inv line && negb (is_header line)
  && negb (startswith line "Format:")
  && startswith line "Style:" && contains "Default" line.

(** The main loop without its list: the emitted lines and the final
    flags, from the flags [inv], [fmt], [rep]. *)
Fixpoint scan (S : string) (inv fmt rep : bool) (lines : list string)
  : list string * (bool * bool * bool) :=
  match lines with
  | [] => ([], (inv, fmt, rep))
  | line :: rest =>
      let hit := is_default_style inv line && negb rep in
      let (out, fin) :=
        scan S (in_section_after inv line) (fmt || is_format inv line)
             (rep || hit) rest in
      ((if hit then S else line) :: out, fin)
  end.




(** A character map that neither makes nor unmakes the character [c]. *)
Definition keeps (g : ascii -> ascii) (c : ascii) : Prop :=
  forall x, Ascii.eqb (g x) c = Ascii.eqb x c.

(** Loading the style file fails: the file is missing, or its text is
    not JSON. *)
Definition load_fails (w : Pipeline.world) (file : string) : Prop :=
  Pipeline.open_config w file = Pipeline.FileNotFoundError
  \/ exists text e, Pipeline.open_config w file = Pipeline.FileText text
                    /\ Pipeline.json_load w text = inl e.

(** The same call without any style configuration. *)
Definition without_style (a : Pipeline.arguments) : Pipeline.arguments :=
  Pipeline.mk_arguments (Pipeline.input_video a) (Pipeline.output_video a)
    (Pipeline.track_id a) None None (Pipeline.manual_styling a).

End Notions.

(* ================================================================= *)
(** ** Sample documents and runs *)

Module Samples.
Import PyStr Style Factory Pipeline.

(** A styles section whose Title style uses the font Default Sans. *)
Definition doc_other_style_mentions_default : string :=
  "[V4+ Styles]
Format: Name, Fontname, Fontsize
Style: Title,Default Sans,20
Style: Default,Arial,20".

(** A styles section with a Format line and no style named Default. *)
Definition doc_no_default_style : string :=
  "[V4+ Styles]
Format: Name, Fontname, Fontsize
Style: Top,Arial,20
Style: Title,Default Sans,20".










(** An ASS text that also holds an SRT block. *)
Definition ass_with_srt_block : string :=
  "[Script Info]
1
00:00:01,000 --> 00:00:02,500
Hello".

(** A run in which every collaborator succeeds, manual styling is off,
    and the style file named on the command line does not exist. *)
Definition all_fine_but_style_file : world :=
  mk_world posixpath default_registry
    (fun _ => FileNotFoundError)
    (fun _ => inl "Expecting value"%string)
    (fun _ => true)
    (Returns [("MKVProcessor"%string, true)])
    (Returns "/tmp/subtitle_processor_1"%string)
    (fun _ => Returns "movie_processed.mkv"%string)
    (fun a b => (a ++ "/" ++ b)%string)
    (fun _ => Returns [mk_track 2 "SubStationAlpha" "eng"])
    (fun _ _ _ => Returns true)
    (fun _ => Some "[Script Info]
[V4+ Styles]
Format: Name, Fontname
Style: Default,Arial,20"%string)
    (fun _ _ => Returns true)
    (Returns false)
    (fun _ => Returns true)
    (Returns tt)
    (fun _ _ _ => Returns true).

Definition run_with_missing_style_file : arguments :=
  mk_arguments "movie.mkv" None None None (Some "style.json"%string) false.

End Samples.

(* ================================================================= *)
(** ** The rest of the factory and the universal processor *)

Module Universal.
Import PyStr Factory Pipeline.

(** [VideoProcessorFactory.get_supported_extensions]:
    [list(self._processors.keys())] *)
Definition factory_extensions (reg : registry) : list string :=
  map fst reg.

(** [VideoProcessorBase.can_process] *)
Definition processor_can_process (os : os_path) (p : processor)
                                 (file_path : string) : bool :=
  let ext := lower (snd (splitext os file_path)) in
  existsb (String.eqb ext) (get_supported_extensions p).

(** [name in tools_status] and [tools_status.get(name)] *)
Definition status_mem (tools_status : list (string * bool)) (name : string) : bool :=
  existsb (fun kv => String.eqb (fst kv) name) tools_status.

Fixpoint status_get (tools_status : list (string * bool)) (name : string)
  : option bool :=
  match tools_status with
  | [] => None
  | (k, b) :: rest => if String.eqb k name then Some b else status_get rest name
  end.

(** One round of the loop of
    [UniversalVideoProcessor.check_tools_available]; [tools p] is what
    [p.check_tools_available()] does. *)
Definition check_one (os : os_path) (reg : registry)
    (tools : processor -> outcome bool)
    (acc : outcome (list (string * bool))) (ext : string)
  : outcome (list (string * bool)) :=
  match acc with
  | Raises e => Raises e
  | Returns tools_status =>
      match get_processor os reg ("dummy" ++ ext) with
      | Some processor =>
          let processor_name := class_name processor in
          if status_mem tools_status processor_name then Returns tools_status
          else match tools processor with
               | Returns b => Returns (tools_status ++ [(processor_name, b)])%list
               | Raises e => Raises e
               end
      | None => Returns tools_status
      end
  end.

(** [UniversalVideoProcessor.check_tools_available] *)
Definition check_tools_available (os : os_path) (reg : registry)
    (tools : processor -> outcome bool) : outcome (list (string * bool)) :=
  fold_left (check_one os reg tools) (factory_extensions reg) (Returns []).

(** The character [c] occurs in [s]. *)
Fixpoint has_char (c : ascii) (s : string) : bool :=
  match s with
  | EmptyString => false
  | String x r => Ascii.eqb x c || has_char c r
  end.

(** An extension as processors are meant to report it: a dot, then no
    dot and no path separator, all in lower case. *)
Definition clean_extension (ext : string) : bool :=
  match ext with
  | String "." e =>
      negb (has_char "." e) && negb (has_char "/" e) && negb (has_char "\" e)
      && String.eqb (lower ext) ext
  | _ => false
  end.

End Universal.

(* ================================================================= *)
(** ** Container analysis: the subtitle tracks of an MKV file *)

Module Mkv.
Import Pipeline.

Unset Elimination Schemes.

(** A value [json.loads] returns; a dict is given by its members, one
    per key. *)
Inductive json : Type :=
| JNull
| JBool (b : bool)
| JInt (z : Z)
| JFloat (text : string)
| JStr (s : string)
| JArr (items : list json)
| JObj (members : list (string * json)).

Set Elimination Schemes.

Fixpoint members_get (m : list (string * json)) (k : string) : option json :=
  match m with
  | [] => None
  | (k', v) :: rest => if String.eqb k' k then Some v else members_get rest k
  end.

(** [v.get(k, default)] *)
Definition get_or (v : json) (k : string) (default : json) : outcome json :=
  match v with
  | JObj m =>
      Returns (match members_get m k with Some x => x | None => default end)
  | _ => Raises "AttributeError"
  end.

(** [v[k]] for a string [k] *)
Definition subscript (v : json) (k : string) : outcome json :=
  match v with
  | JObj m =>
      match members_get m k with
      | Some x => Returns x
      | None => Raises ("KeyError: " ++ k)
      end
  | _ => Raises "TypeError"
  end.

Fixpoint chars (s : string) : list json :=
  match s with
  | EmptyString => []
  | String c r => JStr (String c EmptyString) :: chars r
  end.

(** What [for track in v] goes through. *)
Definition iterate (v : json) : outcome (list json) :=
  match v with
  | JArr items => Returns items
  | JObj m => Returns (map (fun kv => JStr (fst kv)) m)
  | JStr s => Returns (chars s)
  | _ => Raises "TypeError"
  end.

(** [v == 'subtitles'] *)
Definition is_str (v : json) (s : string) : bool :=
  match v with
  | JStr t => String.eqb t s
  | _ => false
  end.

Definition and_then {A B : Type} (o : outcome A) (k : A -> outcome B) : outcome B :=
  match o with
  | Returns a => k a
  | Raises e => Raises e
  end.

(** An entry of the list [get_subtitle_tracks] returns. *)
Record subtitle_track : Type := mk_subtitle_track {
  st_id : json;
  st_codec : json;
  st_language : json;
  st_track_name : json;
  st_default : json
}.

(** The body of the loop: the entry appended for a subtitle track,
    nothing for another track. *)
Definition loop_track (track : json) : outcome (option subtitle_track) :=
  and_then (subscript track "type") (fun ty =>
  if is_str ty "subtitles" then
    and_then (subscript track "id") (fun id =>
    and_then (subscript track "codec") (fun codec =>
    and_then (get_or track "properties" (JObj [])) (fun props =>
    and_then (get_or props "language" (JStr "und")) (fun language =>
    and_then (get_or track "properties" (JObj [])) (fun props =>
    and_then (get_or props "track_name" (JStr "")) (fun track_name =>
    and_then (get_or track "properties" (JObj [])) (fun props =>
    and_then (get_or props "default_track" (JBool false)) (fun default =>
    Returns (Some (mk_subtitle_track id codec language track_name default))))))))))
  else Returns None).

Fixpoint tracks_loop (items : list json) (subtitle_tracks : list subtitle_track)
  : outcome (list subtitle_track) :=
  match items with
  | [] => Returns subtitle_tracks
  | track :: rest =>
      and_then (loop_track track) (fun entry =>
      match entry with
      | Some t => tracks_loop rest (subtitle_tracks ++ [t])
      | None => tracks_loop rest subtitle_tracks
      end)
  end.

(** [MKVProcessor.get_subtitle_tracks], on what [get_track_info]
    does. *)
Definition get_subtitle_tracks (track_info : outcome json)
  : outcome (list subtitle_track) :=
  and_then track_info (fun info =>
  and_then (get_or info "tracks" (JArr [])) (fun tracks =>
  and_then (iterate tracks) (fun items =>
  tracks_loop items []))).

(** The track is a subtitle track. *)
Definition is_subtitles (track : json) : bool :=
  match track with
  | JObj m =>
      match members_get m "type" with
      | Some ty => is_str ty "subtitles"
      | None => false
      end
  | _ => false
  end.

Definition has_member (track : json) (k : string) : bool :=
  match track with
  | JObj m => match members_get m k with Some _ => true | None => false end
  | _ => false
  end.

(** The track has the members the loop reads: a type; for a subtitle
    track also an id and a codec, and properties, if any, that are a
    dict. *)
Definition readable_track (track : json) : bool :=
  has_member track "type"
  && (negb (is_subtitles track)
      || (has_member track "id" && has_member track "codec"
          && match track with
             | JObj m =>
                 match members_get m "properties" with
                 | Some (JObj _) | None => true
                 | Some _ => false
                 end
             | _ => false
             end)).

Definition member (track : json) (k : string) : json :=
  match track with
  | JObj m => match members_get m k with Some x => x | None => JNull end
  | _ => JNull
  end.

(** A property of the track, or the default when the track has no
    properties or not this one. *)
Definition property (track : json) (k : string) (default : json) : json :=
  match track with
  | JObj m =>
      match members_get m "properties" with
      | Some (JObj props) =>
          match members_get props k with Some x => x | None => default end
      | _ => default
      end
  | _ => default
  end.

Definition standard_entry (track : json) : subtitle_track :=
  mk_subtitle_track (member track "id") (member track "codec")
    (property track "language" (JStr "und"))
    (property track "track_name" (JStr ""))
    (property track "default_track" (JBool false)).

End Mkv.

(* ================================================================= *)
(** ** [validate_subtitle_file] *)

Module Validate.
Import PyStr Pipeline.

(** [SubtitleProcessor.validate_subtitle_file]: the result and the
    records logged; [isfile] is [os.path.isfile], a file that cannot be
    read is the [except] branch, with [read_error] the text of the
    exception raised for it. *)
Definition validate_subtitle_file (isfile : string -> bool)
    (fs : Style.file_system) (read_error : string -> string)
    (subtitle_path : string)
  : bool * list log_record :=
  if negb (isfile subtitle_path) then
    (false, [(ERROR, "Subtitle file not found: " ++ subtitle_path)])
  else
    match fs subtitle_path with
    | Some content =>
        match strip content with
        | EmptyString =>
            (false, [(ERROR, "Subtitle file is empty: " ++ subtitle_path)])
        | String _ _ =>
            (true, [(DEBUG, "Subtitle file validation passed: " ++ subtitle_path)])
        end
    | None =>
        (false, [(ERROR, "Cannot read subtitle file " ++ subtitle_path
                         ++ ": " ++ read_error subtitle_path)])
    end.

(** The text is made of whitespace only. *)
Fixpoint blank (s : string) : bool :=
  match s with
  | EmptyString => true
  | String c r => isspace c && blank r
  end.

End Validate.

(* ================================================================= *)
(** ** The command line *)

Module Cli.
Import PyStr Style Factory Pipeline.

(** What [parser.parse_args()] returns, on the command-line branch of
    [main]. *)
Record cli_arguments : Type := mk_cli_arguments {
  arg_input : string;
  arg_output : option string;
  arg_track : option Z;
  arg_config : option string;
  arg_no_manual : bool;
  arg_font_name : option string;
  arg_font_size : option Z
}.

(** [d[k] = v] *)
Fixpoint style_set (d : style_dict) (k : string) (v : pyval) : style_dict :=
  match d with
  | [] => [(k, v)]
  | (k', v') :: d' =>
      if String.eqb k' k then (k', v) :: d' else (k', v') :: style_set d' k v
  end.

(** The style dict [main] builds from the quick styling options. *)
Definition cli_style_config (args : cli_arguments) : style_dict :=
  let style_config := [] in
  let style_config :=
    match arg_font_name args with
    | Some name =>
        if String.eqb name "" then style_config
        else style_set style_config "font_name" (PStr name)
    | None => style_config
    end in
  let style_config :=
    match arg_font_size args with
    | Some size =>
        if Z.eqb size 0 then style_config
        else style_set style_config "font_size" (PInt size)
    | None => style_config
    end in
  style_config.

(** The command-line branch of [main]: the run and the exit status. *)
Definition cli_run (w : world) (args : cli_arguments) (st : run_state)
  : Z * run_state :=
  let style_config := cli_style_config args in
  let (success, st') :=
    process_video_file w
      (mk_arguments (arg_input args) (arg_output args) (arg_track args)
         (if truthy (Dict style_config) then Some (Dict style_config) else None)
         (arg_config args) (negb (arg_no_manual args)))
      st in
  ((if success then 0 else 1)%Z, st').

(** The font name and size the quick options ask for, as text. *)
Definition cli_font (args : cli_arguments) : string :=
  match arg_font_name args with
  | Some name => if String.eqb name "" then "Arial" else name
  | None => "Arial"
  end.

Definition cli_size (args : cli_arguments) : string :=
  match arg_font_size args with
  | Some size => if Z.eqb size 0 then "20" else str_of_Z size
  | None => "20"
  end.

Definition without_quick_options (args : cli_arguments) : cli_arguments :=
  mk_cli_arguments (arg_input args) (arg_output args) (arg_track args)
    (arg_config args) (arg_no_manual args) None None.

End Cli.

(* ================================================================= *)
(** ** The temporary directory of the file manager *)

Module TempDir.
Import Pipeline.

(** [FileManager]: the directory remembered, which paths exist, and the
    records logged. *)
Record manager : Type := mk_manager {
  temp_dir : option string;
  present : string -> bool;
  manager_log : list log_record
}.

(** [FileManager.create_temp_directory]; [mkdtemp] is
    [tempfile.mkdtemp]: the path made and the paths existing afterwards,
    or an exception, which is not caught. *)
Definition create_temp_directory
    (mkdtemp : (string -> bool) -> outcome (string * (string -> bool)))
    (m : manager) : outcome string * manager :=
  match mkdtemp (present m) with
  | Returns (d, fs) =>
      (Returns d,
       mk_manager (Some d) fs
         (manager_log m ++ [(INFO, "Created temporary directory: " ++ d)]))
  | Raises e => (Raises e, m)
  end.

(** [FileManager.cleanup_temp_directory]; [rmtree] is [shutil.rmtree]:
    the paths existing afterwards and the exception raised, if any. *)
Definition cleanup_temp_directory
    (rmtree : (string -> bool) -> string -> (string -> bool) * option string)
    (m : manager) : manager :=
  match temp_dir m with
  | Some d =>
      if negb (String.eqb d "") && present m d then
        let (fs, raised) := rmtree (present m) d in
        match raised with
        | None =>
            mk_manager None fs
              (manager_log m
               ++ [(INFO, "Cleaned up temporary directory: " ++ d)])
        | Some e =>
            mk_manager None fs
              (manager_log m
               ++ [(WARNING, "Failed to clean up temporary directory "
                             ++ d ++ ": " ++ e)])
        end
      else m
  | None => m
  end.

End TempDir.

(* ================================================================= *)
(** ** The queue of the drag-and-drop window *)

Module Queue.
Import PyStr Factory Pipeline.

(** [SubtitleProcessorGUI.add_file_to_queue], on the entries of the list
    box (the progress text is left out). *)
Definition add_file_to_queue (queue : list string) (file_path : string)
  : list string :=
  if existsb (String.eqb file_path) queue then queue
  else (queue ++ [file_path])%list.

(** [SubtitleProcessorGUI.add_folder_to_queue]; [found] are the paths
    [os.walk] and [os.path.join] give, in their order. *)
Definition add_folder_to_queue (os : os_path) (reg : registry)
    (found : list string) (queue : list string) : list string :=
  let video_files := filter (can_process os reg) found in
  fold_left add_file_to_queue video_files queue.

(** [SubtitleProcessorGUI.handle_drop] *)
Definition handle_drop (os : os_path) (reg : registry)
    (isfile isdir : string -> bool) (walk : string -> list string)
    (files : list string) (queue : list string) : list string :=
  fold_left
    (fun q file_path =>
       if isfile file_path && can_process os reg file_path then
         add_file_to_queue q file_path
       else if isdir file_path then
         add_folder_to_queue os reg (walk file_path) q
       else q)
    files queue.

(** The counters of [process_files_thread]; [attempt] is what the body
    of the inner [try] does for a file: the result of the run, or an
    exception. *)
Fixpoint batch (attempt : string -> outcome bool) (files : list string)
               (processed failed : nat) : nat * nat :=
  match files with
  | [] => (processed, failed)
  | file_path :: rest =>
      match attempt file_path with
      | Returns true => batch attempt rest (processed + 1) failed
      | Returns false => batch attempt rest processed (failed + 1)
      | Raises _ => batch attempt rest processed (failed + 1)
      end
  end.

Definition succeeded (attempt : string -> outcome bool) (file_path : string) : bool :=
  match attempt file_path with
  | Returns true => true
  | _ => false
  end.

(** What a step on the queue keeps: no duplicate appears, and what is
    appended can be processed. *)
Definition grows (os : os_path) (reg : registry) (q q' : list string) : Prop :=
  (NoDup q -> NoDup q')
  /\ exists added, q' = (q ++ added)%list
                   /\ forall f, In f added -> can_process os reg f = true.

End Queue.

(* ================================================================= *)
(** ** The Aegisub launcher (aegisub_processor.py) *)

Module Aegisub.
Import PyStr Factory Pipeline.

(** The locations [_find_aegisub] tries, in its order. *)
Definition possible_paths : list string :=
  [ "aegisub";
    "/usr/bin/aegisub";
    "/usr/local/bin/aegisub";
    "C:\Program Files\Aegisub\aegisub64.exe";
    "C:\Program Files (x86)\Aegisub\aegisub32.exe";
    "/Applications/Aegisub.app/Contents/MacOS/aegisub" ].

(** [AegisubProcessor._find_aegisub]; [which path] is the truth value of
    [shutil.which(path)]. *)
Definition _find_aegisub (which : string -> bool) : option string :=
  find which possible_paths.

(** [AegisubProcessor.__init__]: the value of [self.aegisub_path], that is
    [aegisub_path or self._find_aegisub()]. *)
Definition init (aegisub_path : option string) (which : string -> bool)
  : option string :=
  match nonempty aegisub_path with
  | Some given => Some given
  | None => _find_aegisub which
  end.

(** [AegisubProcessor.is_available] *)
Definition is_available (aegisub_path : option string) : bool :=
  match aegisub_path with
  | Some _ => true
  | None => false
  end.

(** [AegisubProcessor.open_for_styling]; [popen program file] is
    [subprocess.Popen([program, file])] and [wait] is [process.wait()]. *)
Definition open_for_styling (aegisub_path : option string)
    (isfile : string -> bool)
    (popen : string -> string -> outcome unit) (wait : outcome unit)
    (subtitle_path : string) (auto_save : bool) : bool * list log_record :=
  match aegisub_path with
  | None =>
      (false,
       [(ERROR, "Aegisub not found. Please install Aegisub or specify path.")])
  | Some program =>
      if negb (isfile subtitle_path) then
        (false, [(ERROR, "Subtitle file not found: " ++ subtitle_path)])
      else if auto_save then
        let opening :=
          (INFO, "Opening " ++ subtitle_path ++ " in Aegisub (blocking mode)") in
        match popen program subtitle_path with
        | Returns _ =>
            match wait with
            | Returns _ =>
                (true,
                 [opening;
                  (INFO, "Aegisub closed, continuing processing");
                  (INFO, "Opened " ++ subtitle_path ++ " in Aegisub")])
            | Raises e =>
                (false, [opening; (ERROR, "Failed to open Aegisub: " ++ e)])
            end
        | Raises e =>
            (false, [opening; (ERROR, "Failed to open Aegisub: " ++ e)])
        end
      else
        let opening :=
          (INFO, "Opening " ++ subtitle_path ++ " in Aegisub (interactive mode)") in
        match popen program subtitle_path with
        | Returns _ =>
            (true, [opening; (INFO, "Opened " ++ subtitle_path ++ " in Aegisub")])
        | Raises e =>
            (false, [opening; (ERROR, "Failed to open Aegisub: " ++ e)])
        end
  end.

(** What [subprocess.run(..., capture_output=True, text=True, timeout=10)]
    gives. *)
Inductive run_result : Type :=
| Completed (stdout stderr : string)
| TimeoutExpired
| CalledProcessError
| OtherError (e : string).

Definition version_flags : list string := ["--version"; "-v"; "--help"].

(** ['aegisub' in s.lower() or 'version' in s.lower()] *)
Definition mentions_version (s : string) : bool :=
  contains "aegisub" (lower s) || contains "version" (lower s).

(** The inner loop of [get_version] over the lines of the output. *)
Fixpoint first_version_line (lines : list string) : option string :=
  match lines with
  | [] => None
  | line :: rest =>
      if mentions_version line then Some (strip line)
      else first_version_line rest
  end.

(** How the loop over the flags ends. *)
Inductive flags_end : Type :=
| Found_line (line : string)
| Exhausted
| Failed (e : string).

(** The loop of [get_version] over the flags. *)
Fixpoint try_flags (run : string -> run_result) (flags : list string)
  : flags_end :=
  match flags with
  | [] => Exhausted
  | flag :: rest =>
      match run flag with
      | Completed stdout stderr =>
          let output := stdout ++ stderr in
          if mentions_version output then
            match first_version_line (split_nl (strip output)) with
            | Some line => Found_line line
            | None => try_flags run rest
            end
          else try_flags run rest
      | TimeoutExpired => try_flags run rest
      | CalledProcessError => try_flags run rest
      | OtherError e => Failed e
      end
  end.

(** [AegisubProcessor.get_version]; [run program flag] is the
    [subprocess.run] call. *)
Definition get_version (aegisub_path : option string)
    (run : string -> string -> run_result) : option string :=
  match aegisub_path with
  | None => None
  | Some program =>
      match try_flags (run program) version_flags with
      | Found_line line => Some line
      | Exhausted => None
      | Failed _ => None
      end
  end.

(** The world in which the pipeline drives this launcher: the calls of
    [process_video_file] to [is_available] and to [open_for_styling] (with
    [auto_save] left at its default); [isfile_then] is [os.path.isfile] at
    the time of that call. *)
Definition with_aegisub (w : world) (aegisub_path : option string)
    (isfile_then : string -> bool)
    (popen : string -> string -> outcome unit) : world :=
  mk_world (os w) (processors w) (open_config w) (json_load w) (isfile w)
    (check_tools_available w) (create_temp_directory w)
    (generate_output_path w) (path_join w) (get_subtitle_tracks w)
    (extract_subtitle_track w) (extracted_files w) (convert_to_ass w)
    (Returns (is_available aegisub_path))
    (fun subtitle =>
       Returns (fst (open_for_styling aegisub_path isfile_then popen
                       (Returns tt) subtitle false)))
    (press_enter w) (merge_video_with_subtitles w).

End Aegisub.

(* ================================================================= *)
(** ** Output paths (file_utils.py, on [pathlib]) *)

(** [pathlib.PurePosixPath], the part of [Path] that [generate_output_path]
    uses where paths are POSIX paths (Python 3.8 to 3.13): a path is kept
    as its root and the list of its components. *)
Module PurePath.
Import PyStr Factory.

Record path : Type := mk_path {
  root : string;
  tail : list string
}.

(** [s.split(sep)] *)
Fixpoint split_on (sep : ascii) (s : string) : list string :=
  match s with
  | EmptyString => [EmptyString]
  | String c r =>
      if Ascii.eqb c sep then EmptyString :: split_on sep r
      else match split_on sep r with
           | [] => [String c EmptyString]
           | l :: ls => String c l :: ls
           end
  end.

(** [sep.join(parts)] *)
Definition join_on (sep : ascii) (parts : list string) : string :=
  String.concat (String sep EmptyString) parts.

(** [posixpath.splitroot] without the drive, which is always empty: one
    leading slash or three and more make the root [/], exactly two make
    the root [//]. *)
Definition splitroot (p : string) : string * string :=
  match p with
  | String c1 r1 =>
      if Ascii.eqb c1 "/" then
        match r1 with
        | String c2 r2 =>
            if Ascii.eqb c2 "/" then
              match r2 with
              | String c3 _ => if Ascii.eqb c3 "/" then ("/", r1) else ("//", r2)
              | EmptyString => ("//", r2)
              end
            else ("/", r1)
        | EmptyString => ("/", r1)
        end
      else (EmptyString, p)
  | EmptyString => (EmptyString, p)
  end.

(** [x and x != '.'] *)
Definition is_part (x : string) : bool :=
  negb (String.eqb x "") && negb (String.eqb x ".").

(** [PurePosixPath(s)] *)
Definition parse (s : string) : path :=
  let (root, rel) := splitroot s in
  mk_path root (filter is_part (split_on "/" rel)).

(** [str(p)] *)
Definition to_str (p : path) : string :=
  let s := root p ++ join_on "/" (tail p) in
  if String.eqb s "" then "." else s.

(** [p.name] *)
Definition name (p : path) : string := last (tail p) "".

(** [0 < i < len(name) - 1] for [i = name.rfind('.')] *)
Definition has_suffix (name : string) : bool :=
  let i := rfind "." name in
  ((0 <? i) && (i <? Z.of_nat (String.length name) - 1))%Z.

(** [p.suffix] *)
Definition suffix (p : path) : string :=
  let name := name p in
  if has_suffix name then drop (Z.to_nat (rfind "." name)) name else "".

(** [p.stem] *)
Definition stem (p : path) : string :=
  let name := name p in
  if has_suffix name then take (Z.to_nat (rfind "." name)) name else name.

(** [p.parent] *)
Definition parent (p : path) : path :=
  match tail p with
  | [] => p
  | _ :: _ => mk_path (root p) (removelast (tail p))
  end.

(** [p / key] for a string [key]: a key with a root replaces the path,
    any other key adds its components. *)
Definition truediv (p : path) (key : string) : path :=
  let k := parse key in
  match root k with
  | EmptyString => mk_path (root p) (tail p ++ tail k)
  | _ => k
  end.

(** What [parse] produces: a root of at most two slashes and components
    that are not empty, not [.] and have no slash. *)
Definition component (x : string) : Prop :=
  is_part x = true /\ Universal.has_char "/" x = false.

Definition well_formed (p : path) : Prop :=
  (root p = "" \/ root p = "/" \/ root p = "//") /\ Forall component (tail p).

End PurePath.

Module FileUtils.
Import PyStr Factory Pipeline PurePath.

(** [FileManager.get_file_extension] *)
Definition get_file_extension (file_path : string) : string :=
  lower (suffix (parse file_path)).

(** [FileManager.generate_output_path] *)
Definition generate_output_path (input_path suffix : string) : string :=
  let path := parse input_path in
  let output_path :=
    truediv (parent path) (stem path ++ suffix ++ PurePath.suffix path) in
  to_str output_path.

(** The world in which the pipeline asks this function for its output
    path ([suffix] left at its default). *)
Definition with_file_manager (w : world) : world :=
  mk_world (os w) (processors w) (open_config w) (json_load w) (isfile w)
    (check_tools_available w) (create_temp_directory w)
    (fun input_video => Returns (generate_output_path input_video "_processed"))
    (path_join w) (get_subtitle_tracks w)
    (extract_subtitle_track w) (extracted_files w) (convert_to_ass w)
    (aegisub_is_available w) (aegisub_open_for_styling w)
    (press_enter w) (merge_video_with_subtitles w).

End FileUtils.

(* ================================================================= *)
(** ** Theorems *)

Module StrFacts.
Import PyStr Notions.

Lemma append_assoc (a b c : string) : (a ++ b) ++ c = a ++ (b ++ c).
Proof. induction a as [|x a IH]; simpl; [reflexivity | now rewrite IH]. Qed.

Lemma append_nil_r (a : string) : a ++ "" = a.
Proof. induction a as [|x a IH]; simpl; [reflexivity | now rewrite IH]. Qed.

Lemma prefix_cons (a b : ascii) (p s : string) :
  String.prefix (String a p) (String b s) = Ascii.eqb a b && String.prefix p s.
Proof.
  simpl. destruct (ascii_dec a b) as [->|Hne].
  - now rewrite Ascii.eqb_refl.
  - apply Ascii.eqb_neq in Hne. now rewrite Hne.
Qed.

Lemma prefix_iff (p s : string) :
  String.prefix p s = true <-> StartsWith s p.
Proof.
  unfold StartsWith. revert s.
  induction p as [|a p IH]; intros s.
  - split; [intros _; now exists s | now destruct s].
  - destruct s as [|b s].
    + split; [discriminate | intros [t Ht]; discriminate].
    + rewrite prefix_cons, andb_true_iff, Ascii.eqb_eq, IH.
      split.
      * intros [-> [t ->]]. now exists t.
      * intros [t Ht]. simpl in Ht. injection Ht as -> ->. split; [reflexivity | now exists t].
Qed.

Lemma contains_iff (p s : string) :
  contains p s = true <-> Substring p s.
Proof.
  unfold Substring.
  induction s as [|c s IH]; cbn [contains]; rewrite orb_true_iff, prefix_iff.
  - split.
    + intros [[t Ht]|H]; [|discriminate]. now exists "", t.
    + intros [pre [post H]]. left.
      destruct pre; [now exists post | discriminate].
  - rewrite IH. split.
    + intros [[t Ht]|[pre [post H]]].
      * now exists "", t.
      * exists (String c pre), post. simpl. now rewrite H.
    + intros [pre [post H]]. destruct pre as [|x pre].
      * left. now exists post.
      * right. simpl in H. injection H as _ H. now exists pre, post.
Qed.

Lemma has_nl_cons (c : ascii) (s : string) :
  has_nl (String c s) = Ascii.eqb c nl || has_nl s.
Proof.
  unfold has_nl. cbn [contains]. rewrite prefix_cons.
  rewrite (Ascii.eqb_sym nl c). now destruct s; rewrite andb_true_r.
Qed.

Lemma split_nl_nonempty (s : string) : split_nl s <> [].
Proof.
  induction s as [|c s IH]; simpl; [discriminate|].
  destruct (Ascii.eqb c nl); [discriminate|].
  now destruct (split_nl s).
Qed.

Lemma join_cons2 (a b : string) (r : list string) :
  join_nl (a :: b :: r) = a ++ String nl (join_nl (b :: r)).
Proof. reflexivity. Qed.

(** ['\n'.join(s.split('\n')) == s] *)
Lemma join_split (s : string) : join_nl (split_nl s) = s.
Proof.
  induction s as [|c s IH]; [reflexivity|].
  cbn [split_nl].
  pose proof (split_nl_nonempty s) as Hne.
  destruct (split_nl s) as [|l ls]; [contradiction|].
  destruct (Ascii.eqb c nl) eqn:E.
  - apply Ascii.eqb_eq in E. subst c.
    rewrite join_cons2, IH. reflexivity.
  - destruct ls as [|l' ls].
    + unfold join_nl in *. simpl in *. now rewrite IH.
    + rewrite join_cons2 in *. simpl. now rewrite IH.
Qed.

Lemma split_nl_no_nl (s : string) :
  Forall (fun l => has_nl l = false) (split_nl s).
Proof.
  induction s as [|c s IH]; simpl.
  - now constructor.
  - destruct (Ascii.eqb c nl) eqn:E.
    + now constructor.
    + destruct (split_nl s) as [|l ls]; inversion IH; subst; constructor; auto.
      * rewrite has_nl_cons, E. reflexivity.
      * rewrite has_nl_cons, E. assumption.
Qed.






End StrFacts.

Module StyleFacts.
Import PyStr Style Notions StrFacts.

Lemma dict_get_field (d : style_dict) (key : string) (dflt : pyval) :
  py_str (dict_get d key dflt) = field d key (py_str dflt).
Proof.
  unfold field.
  induction d as [|[k v] d IH]; simpl; [reflexivity|].
  destruct (String.eqb k key); simpl; [reflexivity | exact IH].
Qed.

(** C2: the style line of the empty configuration named Default is the
    documented literal. *)
Theorem default_style_line_literal :
  create_ass_style_line [] "Default"
  = "Style: Default,Arial,20,&H00FFFFFF,&H000000FF,&H00000000,&H80000000,0,0,0,0,100,100,0,0,1,2,0,2,10,10,10,1".
Proof. reflexivity. Qed.

(** C4: for every configuration the style line is ["Style: "] followed by
    the comma-join of exactly 23 fields in the documented order, each
    configured value rendered as it is (a string value verbatim), the
    documented default standing in for an absent key. *)
Theorem style_line_is_23_joined_fields (style_config : style_dict) (style_name : string) :
  create_ass_style_line style_config style_name
  = "Style: " ++ String.concat "," (documented_fields style_config style_name)
  /\ List.length (documented_fields style_config style_name) = 23%nat.
Proof.
  split; [|reflexivity].
  unfold create_ass_style_line, documented_fields.
  rewrite !dict_get_field.
  cbn [String.concat py_str].
  rewrite !append_assoc.
  reflexivity.
Qed.

(** *** The main loop and the insertion loop, list-free *)

Section Loops.
Local Open Scope list_scope.
Variable style_config : style_dict.
Local Abbreviation SL := (create_ass_style_line style_config "Default").









(** *** What the synthesized line looks like to the loop *)







Lemma outside_not_default (inv : bool) (line : string) :
  in_section_after inv line = false -> is_default_style inv line = false.
Proof. unfold is_default_style. now intros ->. Qed.

(** *** Facts about [scan] *)

Lemma scan_cons (inv fmt rep : bool) (line : string) (rest : list string) :
  scan SL inv fmt rep (line :: rest) =
  ((if is_default_style inv line && negb rep then SL else line)
     :: fst (scan SL (in_section_after inv line) (fmt || is_format inv line)
                  (rep || is_default_style inv line && negb rep) rest),
   snd (scan SL (in_section_after inv line) (fmt || is_format inv line)
             (rep || is_default_style inv line && negb rep) rest)).
Proof. cbn [scan]. now destruct (scan SL _ _ _ rest). Qed.

Lemma scan_replaced (lines : list string) (inv fmt : bool) :
  fst (scan SL inv fmt true lines) = lines
  /\ snd (snd (scan SL inv fmt true lines)) = true.
Proof.
  revert inv fmt. induction lines as [|l rest IH]; intros inv fmt; [now split|].
  rewrite scan_cons. cbn [negb andb orb fst snd]. rewrite andb_false_r.
  destruct (IH (in_section_after inv l) (fmt || is_format inv l)) as [-> ->].
  now split.
Qed.

Lemma scan_untouched (lines : list string) (inv fmt rep : bool) :
  snd (snd (scan SL inv fmt rep lines)) = false ->
  fst (scan SL inv fmt rep lines) = lines /\ rep = false.
Proof.
  revert inv fmt rep. induction lines as [|l rest IH]; intros inv fmt rep.
  - cbn. auto.
  - rewrite scan_cons. cbn [fst snd]. intros H.
    destruct (IH _ _ _ H) as [Hout Hrep].
    apply orb_false_iff in Hrep as [-> Hhit].
    rewrite Hout, Hhit. auto.
Qed.

Lemma scan_length (lines : list string) (inv fmt rep : bool) :
  List.length (fst (scan SL inv fmt rep lines)) = List.length lines.
Proof.
  revert inv fmt rep. induction lines as [|l rest IH]; intros; [reflexivity|].
  rewrite scan_cons. cbn [fst List.length]. now rewrite IH.
Qed.


(** A line outside the styles section is emitted as it is. *)
Lemma scan_outside (lines : list string) (inv fmt rep : bool) (i : nat) (line : string) :
  nth_error lines i = Some line ->
  nth i (section_track inv lines) false = false ->
  nth_error (fst (scan SL inv fmt rep lines)) i = Some line.
Proof.
  revert inv fmt rep i. induction lines as [|l rest IH]; intros inv fmt rep i Hi Hout.
  - destruct i; discriminate.
  - rewrite scan_cons. cbn [fst]. destruct i as [|i].
    + cbn in Hi, Hout |- *. injection Hi as ->.
      now rewrite (outside_not_default _ _ Hout).
    + cbn [nth_error section_track nth] in *. now apply IH.
Qed.


Lemma scan_app (a b : list string) (inv fmt rep : bool) :
  scan SL inv fmt rep (a ++ b) =
  let '(oa, (i, f, r)) := scan SL inv fmt rep a in
  let (ob, fin) := scan SL i f r b in
  (oa ++ ob, fin).
Proof.
  revert inv fmt rep. induction a as [|l a IH]; intros inv fmt rep.
  - cbn [app scan]. now destruct (scan SL inv fmt rep b).
  - cbn [app scan]. rewrite IH.
    destruct (scan SL _ _ _ a) as [oa [[i f] r]].
    now destruct (scan SL i f r b).
Qed.

(** First match wins: the first line the loop takes for the Default
    style is overwritten, the lines before and after it are kept. *)
Lemma first_default_style_overwritten
      (before after : list string) (line : string) (inv fmt i f : bool) :
  snd (scan SL inv fmt false before) = (i, f, false) ->
  is_default_style i line = true ->
  fst (scan SL inv fmt false (before ++ line :: after))
  = before ++ SL :: after.
Proof.
  intros Hpre Hhit. rewrite scan_app.
  pose proof (scan_untouched before inv fmt false) as Hun.
  destruct (scan SL inv fmt false before) as [oa [[i' f'] r']].
  cbn [fst snd] in Hpre, Hun. injection Hpre as -> -> ->.
  destruct (Hun eq_refl) as [-> _].
  rewrite scan_cons, Hhit. cbn [negb andb orb].
  destruct (scan_replaced after (in_section_after i line) (f || is_format i line))
    as [Hout _].
  destruct (scan SL (in_section_after i line) (f || is_format i line) true after)
    as [ob fin].
  cbn [fst] in Hout |- *. now rewrite Hout.
Qed.

(** *** Facts about the insertion *)





End Loops.

End StyleFacts.

(* ================================================================= *)
(** ** The style patcher: properties of [apply_styling_from_config] *)

Module Patcher.
Import PyStr Style Notions Samples StrFacts StyleFacts.
Local Open Scope list_scope.

(** *** The file in text mode *)












(** *** The section, as the program delimits it *)










(** *** The pass on the lines *)

(** C1: on a styles section whose first style is named Title and uses the
    font Default Sans, followed by the style named Default, the Title
    line is the one overwritten and the Default line is passed through. *)
Theorem title_style_overwritten_default_kept :
  styled_content doc_other_style_mentions_default [] =
  "[V4+ Styles]
Format: Name, Fontname, Fontsize
Style: Default,Arial,20,&H00FFFFFF,&H000000FF,&H00000000,&H80000000,0,0,0,0,100,100,0,0,1,2,0,2,10,10,10,1
Style: Default,Arial,20"%string.
Proof. vm_compute. reflexivity. Qed.









(** *** The claims *)







(** C6: on a styles section with a Format line and no style named
    Default, whose last style uses the font Default Sans, nothing is
    inserted after the Format line; that last style is overwritten. *)
Theorem no_insertion_when_a_style_mentions_default :
  styled_content doc_no_default_style [] =
  "[V4+ Styles]
Format: Name, Fontname, Fontsize
Style: Top,Arial,20
Style: Default,Arial,20,&H00FFFFFF,&H000000FF,&H00000000,&H80000000,0,0,0,0,100,100,0,0,1,2,0,2,10,10,10,1"%string.
Proof. vm_compute. reflexivity. Qed.




End Patcher.


(* ================================================================= *)
(** ** The matcher is right about the words of a pattern *)

Module RegexFacts.
Import PyStr Regex Notions StrFacts.

Lemma append_eq_nil (s t : string) : s ++ t = "" -> s = "" /\ t = "".
Proof. destruct s; [auto | discriminate]. Qed.

Lemma nullable_iff (r : re) : nullable r = true <-> Matches r "".
Proof.
  split.
  - induction r; cbn [nullable]; intros H; try discriminate.
    + constructor.
    + apply andb_true_iff in H as [Ha Hb].
      change "" with ("" ++ ""). constructor; auto.
    + apply orb_true_iff in H as [Ha|Hb]; [apply MAltL | apply MAltR]; auto.
    + constructor.
  - intros H. remember "" as e eqn:He.
    induction H; cbn [nullable]; try reflexivity; try discriminate.
    + apply append_eq_nil in He as [-> ->]. now rewrite IHMatches1, IHMatches2.
    + now rewrite IHMatches.
    + rewrite IHMatches by assumption. apply orb_true_r.
Qed.

Lemma deriv_sound (c : ascii) (r : re) (s : string) :
  Matches (deriv c r) s -> Matches r (String c s).
Proof.
  revert s. induction r; cbn [deriv]; intros s H.
  - inversion H.
  - inversion H.
  - destruct (p c) eqn:Hp; inversion H; subst. now constructor.
  - destruct (nullable r1) eqn:Hn.
    + inversion H as [| | | ? ? ? H1 | ? ? ? H1 | |]; subst.
      * inversion H1; subst.
        change (String c (s0 ++ t)) with (String c s0 ++ t).
        constructor; auto.
      * change (String c s) with ("" ++ String c s).
        constructor; [now apply nullable_iff | auto].
    + inversion H; subst.
      change (String c (s0 ++ t)) with (String c s0 ++ t).
      constructor; auto.
  - inversion H; subst; [apply MAltL | apply MAltR]; auto.
  - inversion H; subst.
    change (String c (s0 ++ t)) with (String c s0 ++ t).
    constructor; auto.
Qed.

Lemma deriv_complete (c : ascii) (r : re) (s : string) :
  Matches r (String c s) -> Matches (deriv c r) s.
Proof.
  intros H. remember (String c s) as w eqn:Hw. revert s Hw.
  induction H as [ | p x Hp | a b s1 s2 H1 IH1 H2 IH2 | a b s1 H1 IH1
                 | a b s1 H1 IH1 | a | a s1 s2 H1 IH1 H2 IH2 ];
    intros s Hw; cbn [deriv].
  - discriminate.
  - injection Hw as -> <-. rewrite Hp. constructor.
  - destruct s1 as [|y s1].
    + cbn in Hw. apply nullable_iff in H1. rewrite H1.
      apply MAltR. auto.
    + cbn in Hw. injection Hw as -> <-.
      assert (Hc : Matches (Cat (deriv c a) b) (s1 ++ s2))
        by (constructor; auto).
      destruct (nullable a); [now apply MAltL | assumption].
  - apply MAltL. auto.
  - apply MAltR. auto.
  - discriminate.
  - destruct s1 as [|y s1].
    + cbn in Hw. apply (IH2 _ Hw).
    + cbn in Hw. injection Hw as -> <-. constructor; auto.
Qed.

Lemma match_here_iff (r : re) (s : string) :
  match_here r s = true <-> exists m post, s = m ++ post /\ Matches r m.
Proof.
  revert r. induction s as [|c t IH]; intros r; cbn [match_here];
    rewrite orb_true_iff, nullable_iff.
  - split.
    + intros [H|H]; [|discriminate]. now exists "", "".
    + intros (m & post & Hs & Hm). left.
      symmetry in Hs. apply append_eq_nil in Hs as [-> _]. assumption.
  - rewrite IH. split.
    + intros [H|(m & post & -> & Hm)].
      * now exists "", (String c t).
      * exists (String c m), post. split; [reflexivity|].
        now apply deriv_sound.
    + intros (m & post & Hs & Hm). destruct m as [|y m].
      * now left.
      * right. cbn in Hs. injection Hs as <- ->.
        exists m, post. split; [reflexivity|]. now apply deriv_complete.
Qed.

(** The truth value of [re.search]: some part of the text is a word of
    the pattern. *)
Lemma search_iff (r : re) (s : string) :
  search r s = true <-> Found r s.
Proof.
  unfold Found.
  induction s as [|c t IH]; cbn [search]; rewrite orb_true_iff, match_here_iff.
  - split.
    + intros [(m & post & Hs & Hm)|H]; [|discriminate].
      exists "", m, post. auto.
    + intros (pre & m & post & Hs & Hm). left.
      destruct pre; [|discriminate]. now exists m, post.
  - rewrite IH. split.
    + intros [(m & post & Hs & Hm)|(pre & m & post & Hs & Hm)].
      * exists "", m, post. auto.
      * exists (String c pre), m, post. cbn. now rewrite Hs.
    + intros (pre & m & post & Hs & Hm). destruct pre as [|y pre].
      * left. now exists m, post.
      * right. cbn in Hs. injection Hs as _ ->. now exists pre, m, post.
Qed.

End RegexFacts.

(* ================================================================= *)
(** ** Format detection *)

Module Detection.
Import PyStr Regex Detect Notions Samples StrFacts RegexFacts.

Lemma not_true_false (b : bool) : b <> true -> b = false.
Proof. now destruct b. Qed.

(** C7: the checks are made in the order ASS, VTT, SRT, and the first
    that holds decides; a text with both the ASS section header and an
    SRT block is ASS. *)
Theorem detection_priority (fs : Style.file_system) (subtitle_path content : string) :
  fs subtitle_path = Some content ->
  let result := detect_subtitle_format fs subtitle_path in
  (Substring "[Script Info]" content -> result = "ass")
  /\ (~ Substring "[Script Info]" content ->
      StartsWith (strip content) "WEBVTT" -> result = "vtt")
  /\ (~ Substring "[Script Info]" content ->
      ~ StartsWith (strip content) "WEBVTT" ->
      Found srt_pattern content -> result = "srt")
  /\ (~ Substring "[Script Info]" content ->
      ~ StartsWith (strip content) "WEBVTT" ->
      ~ Found srt_pattern content -> result = "unknown")
  /\ (Substring "[Script Info]" content ->
      Found srt_pattern content -> result = "ass").
Proof.
  intros Hfs result. subst result.
  unfold detect_subtitle_format. rewrite Hfs. unfold detect_content, startswith.
  assert (Hass : Substring "[Script Info]" content ->
                 contains "[Script Info]" content = true)
    by apply contains_iff.
  assert (Hnass : ~ Substring "[Script Info]" content ->
                  contains "[Script Info]" content = false).
  { intros H. apply not_true_false. intros C. apply H. now apply contains_iff. }
  assert (Hnvtt : ~ StartsWith (strip content) "WEBVTT" ->
                  String.prefix "WEBVTT" (strip content) = false).
  { intros H. apply not_true_false. intros C. apply H. now apply prefix_iff. }
  assert (Hnsrt : ~ Found srt_pattern content ->
                  search srt_pattern content = false).
  { intros H. apply not_true_false. intros C. apply H. now apply search_iff. }
  repeat split.
  - intros H. now rewrite (Hass H).
  - intros H1 H2. apply prefix_iff in H2. now rewrite (Hnass H1), H2.
  - intros H1 H2 H3. apply search_iff in H3.
    now rewrite (Hnass H1), (Hnvtt H2), H3.
  - intros H1 H2 H3. now rewrite (Hnass H1), (Hnvtt H2), (Hnsrt H3).
  - intros H _. now rewrite (Hass H).
Qed.

Lemma detection_priority_witness :
  detect_subtitle_format (fun _ => Some ass_with_srt_block) "extracted_2.ass" = "ass".
Proof.
  refine (proj2 (proj2 (proj2 (proj2
    (detection_priority (fun _ => Some ass_with_srt_block)
       "extracted_2.ass" ass_with_srt_block eq_refl)))) _ _).
  - exists "", "
1
00:00:01,000 --> 00:00:02,500
Hello". reflexivity.
  - apply search_iff. vm_compute. reflexivity.
Defined.

End Detection.

(* ================================================================= *)
(** ** The format dispatcher *)

Module Dispatch.
Import PyStr Factory Notions StrFacts.

Lemma rfind_map (g : ascii -> ascii) (c : ascii) (s : string) :
  keeps g c -> rfind c (map_str g s) = rfind c s.
Proof.
  intros Hg. induction s as [|x s IH]; [reflexivity|].
  cbn [map_str rfind]. now rewrite IH, Hg.
Qed.

Lemma get_map (g : ascii -> ascii) (s : string) (i : nat) :
  String.get i (map_str g s) = option_map g (String.get i s).
Proof.
  revert i. induction s as [|x s IH]; intros i; [reflexivity|].
  destruct i; [reflexivity | apply IH].
Qed.

Lemma skip_leading_dots_map (g : ascii -> ascii) (extsep : ascii)
      (p : string) (i n : nat) :
  keeps g extsep ->
  skip_leading_dots (map_str g p) extsep i n = skip_leading_dots p extsep i n.
Proof.
  intros Hg. revert i. induction n as [|n IH]; intros i; [reflexivity|].
  cbn [skip_leading_dots]. rewrite get_map.
  destruct (String.get i p) as [x|]; cbn [option_map]; [|reflexivity].
  now rewrite Hg, IH.
Qed.

Lemma take_map (g : ascii -> ascii) (k : nat) (s : string) :
  take k (map_str g s) = map_str g (take k s).
Proof.
  revert k. induction s as [|x s IH]; intros [|k]; try reflexivity.
  cbn [map_str take]. now rewrite IH.
Qed.

Lemma drop_map (g : ascii -> ascii) (k : nat) (s : string) :
  drop k (map_str g s) = map_str g (drop k s).
Proof.
  revert k. induction s as [|x s IH]; intros [|k]; try reflexivity.
  cbn [map_str drop]. apply IH.
Qed.

Lemma take_drop (k : nat) (s : string) : take k s ++ drop k s = s.
Proof.
  revert k. induction s as [|x s IH]; intros [|k]; try reflexivity.
  cbn [take drop append]. now rewrite IH.
Qed.

Lemma map_str_app (g : ascii -> ascii) (a b : string) :
  map_str g (a ++ b) = map_str g a ++ map_str g b.
Proof. induction a as [|x a IH]; [reflexivity|]. cbn. now rewrite IH. Qed.

Lemma map_str_ext (f g : ascii -> ascii) (s : string) :
  (forall x, f x = g x) -> map_str f s = map_str g s.
Proof. intros H. induction s as [|x s IH]; [reflexivity|]. cbn. now rewrite H, IH. Qed.

Lemma map_str_map_str (f g : ascii -> ascii) (s : string) :
  map_str f (map_str g s) = map_str (fun x => f (g x)) s.
Proof. induction s as [|x s IH]; [reflexivity|]. cbn. now rewrite IH. Qed.

Lemma _splitext_map (g : ascii -> ascii) (p : string)
      (sep : ascii) (altsep : option ascii) (extsep : ascii) :
  keeps g sep ->
  (forall a, altsep = Some a -> keeps g a) ->
  keeps g extsep ->
  _splitext (map_str g p) sep altsep extsep
  = (map_str g (fst (_splitext p sep altsep extsep)),
     map_str g (snd (_splitext p sep altsep extsep))).
Proof.
  intros Hsep Halt Hext. unfold _splitext.
  rewrite !rfind_map by assumption.
  assert (Ha : match altsep with
               | Some a => Z.max (rfind sep p) (rfind a (map_str g p))
               | None => rfind sep p
               end
               = match altsep with
                 | Some a => Z.max (rfind sep p) (rfind a p)
                 | None => rfind sep p
                 end).
  { destruct altsep as [a|]; [|reflexivity].
    now rewrite (rfind_map g a p (Halt a eq_refl)). }
  rewrite Ha, skip_leading_dots_map by assumption.
  destruct (_ && _); cbn [fst snd]; [|reflexivity].
  now rewrite take_map, drop_map.
Qed.

Lemma splitext_app (os : os_path) (p : string) :
  fst (splitext os p) ++ snd (splitext os p) = p.
Proof.
  destruct os; unfold splitext, _splitext;
    destruct (_ && _); cbn [fst snd];
    (apply take_drop || apply append_nil_r).
Qed.

Lemma lower_keeps_dot : keeps lower_char ".".
Proof. intros [[] [] [] [] [] [] [] []]; reflexivity. Qed.

Lemma lower_keeps_slash : keeps lower_char "/".
Proof. intros [[] [] [] [] [] [] [] []]; reflexivity. Qed.

Lemma lower_keeps_backslash : keeps lower_char "\".
Proof. intros [[] [] [] [] [] [] [] []]; reflexivity. Qed.

Lemma lower_char_idem (x : ascii) : lower_char (lower_char x) = lower_char x.
Proof. destruct x as [[] [] [] [] [] [] [] []]; reflexivity. Qed.

Lemma lower_upper_char (x : ascii) : lower_char (upper_char x) = lower_char x.
Proof. destruct x as [[] [] [] [] [] [] [] []]; reflexivity. Qed.

Lemma lower_idem (s : string) : lower (lower s) = lower s.
Proof.
  unfold lower. rewrite map_str_map_str.
  apply map_str_ext, lower_char_idem.
Qed.

Lemma lower_upper (s : string) : lower (upper s) = lower s.
Proof.
  unfold lower, upper. rewrite map_str_map_str.
  apply map_str_ext, lower_upper_char.
Qed.

(** Lower-casing a path lower-cases its root and its extension. *)
Lemma splitext_lower (os : os_path) (p : string) :
  splitext os (lower p)
  = (lower (fst (splitext os p)), lower (snd (splitext os p))).
Proof.
  destruct os; unfold splitext, lower; apply _splitext_map;
    try apply lower_keeps_dot; try apply lower_keeps_slash;
    try apply lower_keeps_backslash; intros a Ha; try discriminate.
  injection Ha as <-. apply lower_keeps_slash.
Qed.

(** Paths that differ in letter case only get the same processor. *)
Lemma get_processor_case_insensitive (os : os_path) (reg : registry) (p q : string) :
  lower p = lower q ->
  get_processor os reg p = get_processor os reg q.
Proof.
  intros H. unfold get_processor.
  pose proof (splitext_lower os p) as Hp.
  pose proof (splitext_lower os q) as Hq.
  rewrite H, Hq in Hp.
  injection Hp as _ He. now rewrite He.
Qed.

(** C8: a path with its extension in upper case and the same path with
    its extension in lower case get the same processor, which is the one
    of the path itself, and so do the whole path in upper case and in
    lower case; a path whose lower-cased extension is no key of the
    registry gets none; with the registry the program builds, MOVIE.MKV
    and movie.mkv get the MKV processor and movie.xyz none. *)
Theorem resolve_ignores_extension_case (os : os_path) (reg : registry) (file_path : string) :
  let root := fst (splitext os file_path) in
  let ext := snd (splitext os file_path) in
  get_processor os reg (root ++ upper ext) = get_processor os reg (root ++ lower ext)
  /\ get_processor os reg (root ++ upper ext) = get_processor os reg file_path
  /\ get_processor os reg (upper file_path) = get_processor os reg (lower file_path)
  /\ (dict_lookup reg (lower ext) = None -> get_processor os reg file_path = None)
  /\ get_processor os default_registry "MOVIE.MKV" = Some MKVProcessor
  /\ get_processor os default_registry "movie.mkv" = Some MKVProcessor
  /\ get_processor os default_registry "movie.xyz" = None.
Proof.
  intros root ext.
  assert (Hup : get_processor os reg (root ++ upper ext) = get_processor os reg file_path).
  { apply get_processor_case_insensitive.
    unfold lower at 1. rewrite map_str_app. fold (lower root) (lower (upper ext)).
    rewrite lower_upper. unfold lower. rewrite <- map_str_app.
    subst root ext. now rewrite splitext_app. }
  assert (Hlo : get_processor os reg (root ++ lower ext) = get_processor os reg file_path).
  { apply get_processor_case_insensitive.
    unfold lower at 1. rewrite map_str_app. fold (lower root) (lower (lower ext)).
    rewrite lower_idem. unfold lower. rewrite <- map_str_app.
    subst root ext. now rewrite splitext_app. }
  split; [congruence|]. split; [assumption|]. split.
  { apply get_processor_case_insensitive. now rewrite lower_upper, lower_idem. }
  split.
  - intros H. unfold get_processor. exact H.
  - destruct os; repeat split; reflexivity.
Qed.

Lemma resolve_ignores_extension_case_witness :
  get_processor posixpath default_registry "clips/holiday.avi" = None.
Proof.
  apply (proj1 (proj2 (proj2 (proj2
    (resolve_ignores_extension_case posixpath default_registry "clips/holiday.avi"))))).
  reflexivity.
Defined.

End Dispatch.

(* ================================================================= *)
(** ** The pipeline and a style file that cannot be loaded *)

Module StyleFileFailure.
Import PyStr Style Factory Pipeline Notions Samples.
Local Open Scope list_scope.

(** C9: in a run whose every other step succeeds and whose style file
    does not exist, [load_style_config] logs the error and hands back the
    empty dict, and [process_video_file] returns [True]: its log holds
    the error, right after it the record that the configuration was
    loaded, and the record of success; the subtitle is merged unstyled. *)
Theorem missing_style_file_run_succeeds :
  load_fails all_fine_but_style_file "style.json"
  /\ fst (load_style_config all_fine_but_style_file "style.json"
                            (mk_run_state [] [])) = Dict []
  /\ process_video_file all_fine_but_style_file run_with_missing_style_file
                        (mk_run_state [] [])
     = (true,
        mk_run_state
          [ (INFO, "Auto-selected track 2"%string);
            (ERROR, "Configuration file not found: style.json"%string);
            (INFO, "Loaded style configuration from style.json"%string);
            (INFO, "Successfully processed video: movie_processed.mkv"%string) ]
          [ Merged "movie.mkv" "/tmp/subtitle_processor_1/extracted_2.ass"
                   "movie_processed.mkv";
            CleanedUp ]).
Proof.
  split; [now left|]. split; vm_compute; reflexivity.
Qed.

Lemma load_failure_result (w : world) (file : string) (st : run_state) :
  load_fails w file ->
  exists msg, load_style_config w file st = (Dict [], say ERROR msg st).
Proof.
  unfold load_style_config.
  intros [H | (text & e & H1 & H2)].
  - rewrite H. eauto.
  - rewrite H1, H2. eauto.
Qed.

Lemma prepare_ignores_style (w : world) (a : arguments) :
  prepare_subtitle w (without_style a) = prepare_subtitle w a.
Proof. reflexivity. Qed.

Ltac split_outcomes :=
  repeat match goal with
         | |- context [match ?o with Returns _ => _ | Raises _ => _ end] =>
             destruct o
         | |- context [if ?b then _ else _] => destruct b
         end.

(** Styling and merging with the empty dict goes as with no style
    configuration, from any two states with the same events; the log is
    only added to. *)
Lemma style_and_merge_empty (w : world) (a : arguments)
      (sub out : string) (st st' : run_state) :
  events st = events st' ->
  fst (style_and_merge w a sub out (Some (Dict [])) st)
  = fst (style_and_merge w (without_style a) sub out None st')
  /\ events (snd (style_and_merge w a sub out (Some (Dict [])) st))
     = events (snd (style_and_merge w (without_style a) sub out None st'))
  /\ exists more,
       log (snd (style_and_merge w a sub out (Some (Dict [])) st)) = log st ++ more.
Proof.
  intros Hev. destruct st as [l ev], st' as [l' ev']. cbn in Hev. subst ev'.
  unfold style_and_merge, without_style, bind, call, logger, does, when_,
    ret, say, emit.
  cbn [manual_styling input_video truthy log events].
  split_outcomes; cbn [fst snd log events];
    (split; [reflexivity | split; [reflexivity|]]);
    rewrite <- ?app_assoc; eauto using app_nil_r.
  all: exists []; now rewrite app_nil_r.
Qed.

Lemma handle_result (r1 r2 : flow bool * run_state) :
  fst r1 = fst r2 ->
  fst (handle_and_cleanup r1) = fst (handle_and_cleanup r2).
Proof.
  destruct r1 as [f1 s1], r2 as [f2 s2]. cbn [fst]. intros ->.
  unfold handle_and_cleanup. now destruct f2.
Qed.

Lemma handle_events (r1 r2 : flow bool * run_state) :
  fst r1 = fst r2 ->
  events (snd r1) = events (snd r2) ->
  events (snd (handle_and_cleanup r1)) = events (snd (handle_and_cleanup r2)).
Proof.
  destruct r1 as [f1 s1], r2 as [f2 s2]. cbn [fst snd]. intros -> H.
  unfold handle_and_cleanup.
  destruct f2; cbn [snd emit say events]; now rewrite H.
Qed.

Lemma handle_log (r : flow bool * run_state) (entry : log_record) :
  In entry (log (snd r)) ->
  In entry (log (snd (handle_and_cleanup r))).
Proof.
  destruct r as [f s]. cbn [snd]. intros H.
  unfold handle_and_cleanup.
  destruct f; cbn [snd emit say log]; rewrite ?in_app_iff; auto.
Qed.

(** The same for every run: a style file that is missing or is not JSON
    is logged as an error and gives the empty dict; nothing is raised;
    the run then goes on as a run without any style configuration, with
    the same result and the same actions, and its log holds the error
    once the styling phase was reached. *)
Lemma style_file_failure_logged_and_skipped
        (w : world) (a : arguments) (file : string) (st : run_state) :
  nonempty (style_config_file a) = Some file ->
  load_fails w file ->
  (exists msg, load_style_config w file st = (Dict [], say ERROR msg st))
  /\ fst (process_video_file w a st)
     = fst (process_video_file w (without_style a) st)
  /\ events (snd (process_video_file w a st))
     = events (snd (process_video_file w (without_style a) st))
  /\ (forall paths st1,
         prepare_subtitle w a st = (Next paths, st1) ->
         exists msg, In (ERROR, msg) (log (snd (process_video_file w a st)))).
Proof.
  intros Hfile Hfail.
  split; [now apply load_failure_result|].
  unfold process_video_file, process_body, bind.
  rewrite prepare_ignores_style.
  destruct (prepare_subtitle w a st) as [[paths|b|e] st1].
  - (* the styling phase is reached *)
    destruct (load_failure_result w file st1 Hfail) as [msg Hload].
    unfold resolve_style_config, bind, logger, ret.
    rewrite Hfile, Hload.
    cbn [without_style style_config_file style_config nonempty].
    fold (without_style a).
    remember (say INFO ("Loaded style configuration from " ++ file)%string
                  (say ERROR msg st1)) as st2 eqn:Hst2.
    assert (Hsame : events st2 = events st1) by now subst st2.
    destruct (style_and_merge_empty w a (fst paths) (snd paths) st2 st1 Hsame)
      as (Hres & Hev & more & Hlog).
    split; [exact (handle_result _ _ Hres)|].
    split; [exact (handle_events _ _ Hres Hev)|].
    intros _ _ _. exists msg. apply handle_log.
    rewrite Hlog. subst st2. cbn [say log].
    rewrite !in_app_iff. cbn [In]. tauto.
  - repeat split. intros ? ? [=].
  - repeat split. intros ? ? [=].
Qed.

End StyleFileFailure.

(* ================================================================= *)
(** ** The registry *)

Module RegistryFacts.
Import PyStr Factory Pipeline Universal Notions StrFacts Dispatch.
Local Open Scope list_scope.

Lemma dict_lookup_set_same (reg : registry) (k : string) (v : processor) :
  dict_lookup (dict_set reg k v) k = Some v.
Proof.
  induction reg as [|[k' v'] reg IH]; cbn [dict_set dict_lookup].
  - now rewrite String.eqb_refl.
  - destruct (String.eqb k' k) eqn:E; cbn [dict_lookup]; rewrite E; auto.
Qed.

Lemma dict_lookup_set_other (reg : registry) (k k' : string) (v : processor) :
  k <> k' ->
  dict_lookup (dict_set reg k v) k' = dict_lookup reg k'.
Proof.
  intros Hne. induction reg as [|[k0 v0] reg IH]; cbn [dict_set dict_lookup].
  - destruct (String.eqb_spec k k'); [contradiction | reflexivity].
  - destruct (String.eqb_spec k0 k) as [->|Hk]; cbn [dict_lookup].
    + destruct (String.eqb_spec k k'); [contradiction | reflexivity].
    + now rewrite IH.
Qed.

Lemma lookup_register_fold (p : processor) (exts : list string)
      (reg : registry) (ext : string) :
  dict_lookup (fold_left (fun r e => dict_set r e p) exts reg) ext
  = if existsb (String.eqb ext) exts then Some p else dict_lookup reg ext.
Proof.
  revert reg. induction exts as [|e exts IH]; intros reg; [reflexivity|].
  cbn [fold_left existsb]. rewrite IH.
  destruct (existsb (String.eqb ext) exts); [now rewrite orb_true_r|].
  rewrite orb_false_r.
  destruct (String.eqb_spec ext e) as [->|Hne].
  - apply dict_lookup_set_same.
  - apply dict_lookup_set_other. congruence.
Qed.

Lemma existsb_eqb_In (x : string) (l : list string) :
  existsb (String.eqb x) l = true <-> In x l.
Proof.
  rewrite existsb_exists. split.
  - intros (y & Hy & E). apply String.eqb_eq in E. now subst.
  - intros H. exists x. split; [assumption | apply String.eqb_refl].
Qed.

(** X1: after a processor is registered, each extension it reports
    resolves to it, whatever was registered for that extension before;
    every other extension resolves as before. *)
Theorem register_then_lookup (reg : registry) (p : processor) (ext : string) :
  (In ext (get_supported_extensions p) ->
   dict_lookup (register_processor reg p) ext = Some p)
  /\ (~ In ext (get_supported_extensions p) ->
      dict_lookup (register_processor reg p) ext = dict_lookup reg ext).
Proof.
  unfold register_processor. rewrite lookup_register_fold.
  split; intros H.
  - apply existsb_eqb_In in H. now rewrite H.
  - destruct (existsb (String.eqb ext) (get_supported_extensions p)) eqn:E;
      [|reflexivity].
    apply existsb_eqb_In in E. contradiction.
Qed.

Lemma register_then_lookup_witness :
  dict_lookup (register_processor default_registry
                 (mk_processor "Mp4Processor" [".mp4"; ".mkv"])) ".mkv"
  = Some (mk_processor "Mp4Processor" [".mp4"; ".mkv"])
  /\ dict_lookup (register_processor [] (mk_processor "Mp4Processor" [".mp4"])) ".mkv"
     = dict_lookup [] ".mkv".
Proof.
  split.
  - apply (proj1 (register_then_lookup default_registry
                    (mk_processor "Mp4Processor" [".mp4"; ".mkv"]) ".mkv")).
    cbn. auto.
  - apply (proj2 (register_then_lookup []
                    (mk_processor "Mp4Processor" [".mp4"]) ".mkv")).
    cbn. intros [H|[]]. discriminate.
Defined.

Lemma keys_dict_set (reg : registry) (k : string) (v : processor) :
  factory_extensions (dict_set reg k v)
  = if existsb (String.eqb k) (factory_extensions reg)
    then factory_extensions reg
    else factory_extensions reg ++ [k].
Proof.
  unfold factory_extensions.
  induction reg as [|[k' v'] reg IH]; [reflexivity|].
  cbn [dict_set map fst existsb].
  rewrite (String.eqb_sym k k').
  destruct (String.eqb k' k); cbn [map fst orb]; [reflexivity|].
  rewrite IH. now destruct (existsb _ _).
Qed.

Lemma keys_dict_set_nodup (reg : registry) (k : string) (v : processor) :
  NoDup (factory_extensions reg) ->
  NoDup (factory_extensions (dict_set reg k v)).
Proof.
  intros H. rewrite keys_dict_set.
  destruct (existsb (String.eqb k) (factory_extensions reg)) eqn:E; [assumption|].
  apply NoDup_app; [assumption | repeat constructor; auto |].
  intros x Hx [<-|[]].
  apply existsb_eqb_In in Hx. congruence.
Qed.

Lemma keys_dict_set_incl (reg : registry) (k : string) (v : processor) (x : string) :
  In x (factory_extensions (dict_set reg k v))
  <-> In x (factory_extensions reg) \/ x = k.
Proof.
  rewrite keys_dict_set.
  destruct (existsb (String.eqb k) (factory_extensions reg)) eqn:E.
  - apply existsb_eqb_In in E. split; [auto | intros [H| ->]; assumption].
  - rewrite in_app_iff. cbn [In]. split; intros [H|H]; auto.
    + destruct H as [<-|[]]. auto.
Qed.

(** X2: the list of supported extensions never names an extension twice,
    however many processors registered it, and registering a processor
    adds exactly the extensions it reports to the ones listed before. *)
Theorem supported_extensions_stay_distinct (reg : registry) (p : processor) :
  NoDup (factory_extensions reg) ->
  NoDup (factory_extensions (register_processor reg p))
  /\ forall ext,
       In ext (factory_extensions (register_processor reg p))
       <-> In ext (factory_extensions reg) \/ In ext (get_supported_extensions p).
Proof.
  unfold register_processor.
  generalize (get_supported_extensions p) as exts.
  intros exts. revert reg. induction exts as [|e exts IH]; intros reg Hnd.
  - cbn. split; [assumption|]. intros ext. tauto.
  - cbn [fold_left].
    destruct (IH (dict_set reg e p) (keys_dict_set_nodup reg e p Hnd)) as [H1 H2].
    split; [assumption|]. intros ext. rewrite H2, keys_dict_set_incl.
    cbn [In]. intuition congruence.
Qed.

Lemma supported_extensions_stay_distinct_witness :
  NoDup (factory_extensions
           (register_processor default_registry
              (mk_processor "Mp4Processor" [".mp4"; ".mkv"]))).
Proof.
  apply (proj1 (supported_extensions_stay_distinct default_registry
                  (mk_processor "Mp4Processor" [".mp4"; ".mkv"])
                  ltac:(repeat constructor; cbn; tauto))).
Defined.

Lemma lookup_in (reg : registry) (k : string) (v : processor) :
  dict_lookup reg k = Some v -> In (k, v) reg.
Proof.
  induction reg as [|[k' v'] reg IH]; cbn [dict_lookup]; [discriminate|].
  destruct (String.eqb_spec k' k) as [->|Hne].
  - intros [= ->]. now left.
  - intros H. right. auto.
Qed.

(** X3: a processor that accepts a path by its own [can_process] is the
    one the factory returns for that path once it is registered. *)
Theorem registered_processor_is_resolved
        (os : os_path) (reg : registry) (p : processor) (file_path : string) :
  processor_can_process os p file_path = true ->
  get_processor os (register_processor reg p) file_path = Some p
  /\ can_process os (register_processor reg p) file_path = true.
Proof.
  unfold processor_can_process, can_process, get_processor.
  intros H. apply existsb_eqb_In in H.
  unfold register_processor. rewrite lookup_register_fold.
  apply existsb_eqb_In in H. rewrite H. auto.
Qed.

Lemma registered_processor_is_resolved_witness :
  get_processor posixpath
    (register_processor [] (mk_processor "Mp4Processor" [".mp4"; ".m4v"]))
    "clips/Holiday.M4V"
  = Some (mk_processor "Mp4Processor" [".mp4"; ".m4v"]).
Proof.
  apply (proj1 (registered_processor_is_resolved posixpath []
                  (mk_processor "Mp4Processor" [".mp4"; ".m4v"])
                  "clips/Holiday.M4V" eq_refl)).
Defined.

Lemma resolved_key_aux (os : os_path) (reg : registry)
      (file_path : string) (p : processor) :
  get_processor os reg file_path = Some p ->
  exists key, In (key, p) reg /\ lower key = key.
Proof.
  unfold get_processor. intros H.
  exists (lower (snd (splitext os file_path))).
  split; [now apply lookup_in | apply lower_idem].
Qed.

(** X4: the factory only ever looks up a lower-cased extension, so a
    processor it returns is registered under a key that is its own lower
    case; one registered only under keys with capital letters is returned
    for no path. *)
Theorem resolved_key_is_lower_case
        (os : os_path) (reg : registry) (file_path : string) (p : processor) :
  get_processor os reg file_path = Some p ->
  exists key, In (key, p) reg /\ lower key = key.
Proof. apply resolved_key_aux. Qed.

Lemma resolved_key_is_lower_case_witness :
  exists key, In (key, MKVProcessor) default_registry /\ lower key = key.
Proof.
  apply (resolved_key_is_lower_case ntpath default_registry
           "C:\\films\\Movie.MKV" MKVProcessor eq_refl).
Defined.

Lemma rfind_absent (c : ascii) (s : string) :
  has_char c s = false -> rfind c s = (-1)%Z.
Proof.
  induction s as [|x s IH]; [reflexivity|].
  cbn [has_char rfind]. intros H. apply orb_false_iff in H as [Hx Hs].
  now rewrite (IH Hs), Hx.
Qed.

(** The path the tool check makes up for an extension has that
    extension. *)
Lemma splitext_dummy (os : os_path) (ext : string) :
  clean_extension ext = true ->
  splitext os ("dummy" ++ ext) = ("dummy"%string, ext)
  /\ lower ext = ext.
Proof.
  unfold clean_extension.
  destruct ext as [|c e]; [discriminate|].
  destruct (Ascii.eqb_spec c ".") as [->|Hne].
  2:{ destruct c as [[] [] [] [] [] [] [] []]; try discriminate. congruence. }
  intros H.
  apply andb_true_iff in H as [H Hlow].
  apply andb_true_iff in H as [H Hbs].
  apply andb_true_iff in H as [Hdot Hsl].
  apply negb_true_iff in Hdot, Hsl, Hbs. apply String.eqb_eq in Hlow.
  split; [|assumption].
  pose proof (rfind_absent _ _ Hdot) as Rd.
  pose proof (rfind_absent _ _ Hsl) as Rs.
  pose proof (rfind_absent _ _ Hbs) as Rb.
  destruct os; unfold splitext, _splitext; cbn [append rfind];
    rewrite ?Rd, ?Rs, ?Rb; reflexivity.
Qed.

Lemma fold_check_raises (os : os_path) (reg : registry)
      (tools : processor -> outcome bool) (ks : list string) (e : string) :
  fold_left (check_one os reg tools) ks (Raises e) = Raises e.
Proof. induction ks as [|k ks IH]; [reflexivity | exact IH]. Qed.

Lemma status_mem_app (a b : list (string * bool)) (name : string) :
  status_mem (a ++ b) name = status_mem a name || status_mem b name.
Proof. unfold status_mem. apply existsb_app. Qed.

(** What the loop of the tool check keeps: names once entered stay, every
    key visited whose made-up path resolves has its class entered, and
    every entry is the answer of a processor of the registry. *)
Lemma fold_check_invariant (os : os_path) (reg : registry)
      (tools : processor -> outcome bool) (ks : list string)
      (acc status : list (string * bool)) :
  fold_left (check_one os reg tools) ks (Returns acc) = Returns status ->
  (forall name, status_mem acc name = true -> status_mem status name = true)
  /\ (forall key p, In key ks ->
        get_processor os reg ("dummy" ++ key) = Some p ->
        status_mem status (class_name p) = true)
  /\ (forall name b, In (name, b) status ->
        In (name, b) acc
        \/ exists key p, In (key, p) reg /\ class_name p = name
                         /\ tools p = Returns b).
Proof.
  revert acc. induction ks as [|k ks IH]; intros acc H.
  - cbn in H. injection H as <-.
    split; [auto|]. split; [intros ? ? []|auto].
  - cbn [fold_left] in H. unfold check_one at 2 in H.
    destruct (get_processor os reg ("dummy" ++ k)) as [q|] eqn:Eq.
    + cbn zeta in H.
      destruct (status_mem acc (class_name q)) eqn:Em.
      * destruct (IH _ H) as (I1 & I2 & I3).
        split; [assumption|]. split; [|assumption].
        intros key p [<-|Hin] Hp; [|eauto].
        rewrite Eq in Hp. injection Hp as <-. auto.
      * destruct (tools q) as [b|e] eqn:Et.
        -- destruct (IH _ H) as (I1 & I2 & I3).
           split; [|split].
           ++ intros name Hn. apply I1. rewrite status_mem_app, Hn. reflexivity.
           ++ intros key p [<-|Hin] Hp; [|eauto].
              rewrite Eq in Hp. injection Hp as <-.
              apply I1. rewrite status_mem_app. cbn.
              rewrite String.eqb_refl. now rewrite orb_true_r.
           ++ intros name b0 Hin. destruct (I3 _ _ Hin) as [Ha|Hex]; [|auto].
              apply in_app_iff in Ha as [Ha|[[= <- <-]|[]]]; [auto|].
              right. destruct (resolved_key_aux os reg _ _ Eq) as (key & Hk & _).
              eauto.
        -- rewrite fold_check_raises in H. discriminate.
    + destruct (IH _ H) as (I1 & I2 & I3).
      split; [assumption|]. split; [|assumption].
      intros key p [<-|Hin] Hp; [congruence | eauto].
Qed.

Lemma fold_check_returns (os : os_path) (reg : registry)
      (tools : processor -> outcome bool) (ks : list string)
      (acc : list (string * bool)) :
  (forall p, exists b, tools p = Returns b) ->
  exists status,
    fold_left (check_one os reg tools) ks (Returns acc) = Returns status.
Proof.
  intros Ht. revert acc. induction ks as [|k ks IH]; intros acc.
  - now exists acc.
  - cbn [fold_left]. unfold check_one at 2.
    destruct (get_processor os reg ("dummy" ++ k)) as [q|]; [|apply IH].
    cbn zeta. destruct (status_mem acc (class_name q)); [apply IH|].
    destruct (Ht q) as [b ->]. apply IH.
Qed.

(** X5: when every registered extension is a dot followed by lower-case
    text without dot or separator, and no processor's own check raises,
    the tool check returns, and its result has an entry for the class of
    every registered processor. *)
Theorem tool_check_covers_registry
        (os : os_path) (reg : registry) (tools : processor -> outcome bool) :
  forallb clean_extension (factory_extensions reg) = true ->
  (forall p, exists b, tools p = Returns b) ->
  exists status,
    check_tools_available os reg tools = Returns status
    /\ forall key p, dict_lookup reg key = Some p ->
                     status_mem status (class_name p) = true.
Proof.
  intros Hclean Ht. unfold check_tools_available.
  destruct (fold_check_returns os reg tools (factory_extensions reg) [] Ht)
    as [status Hs].
  exists status. split; [assumption|].
  intros key p Hk.
  destruct (fold_check_invariant os reg tools _ _ _ Hs) as (_ & I2 & _).
  assert (Hin : In key (factory_extensions reg)).
  { apply lookup_in in Hk. unfold factory_extensions.
    change key with (fst (key, p)). now apply in_map. }
  apply (I2 key p Hin).
  rewrite forallb_forall in Hclean.
  destruct (splitext_dummy os key (Hclean key Hin)) as [Hsp Hlow].
  unfold get_processor. rewrite Hsp. cbn [snd]. now rewrite Hlow.
Qed.

Lemma tool_check_covers_registry_witness :
  exists status,
    check_tools_available posixpath default_registry (fun _ => Returns false)
    = Returns status
    /\ forall key p, dict_lookup default_registry key = Some p ->
                     status_mem status (class_name p) = true.
Proof.
  apply (tool_check_covers_registry posixpath default_registry
           (fun _ => Returns false) eq_refl).
  intros p. now exists false.
Defined.

(** X6: the tool check reports a working tool only on the word of a
    registered processor: when some value of its result is true, some
    processor of the registry answered true. *)
Theorem tool_check_true_is_genuine
        (os : os_path) (reg : registry) (tools : processor -> outcome bool)
        (status : list (string * bool)) :
  check_tools_available os reg tools = Returns status ->
  existsb snd status = true ->
  exists key p, In (key, p) reg /\ tools p = Returns true.
Proof.
  unfold check_tools_available. intros Hs Hany.
  destruct (fold_check_invariant os reg tools _ _ _ Hs) as (_ & _ & I3).
  apply existsb_exists in Hany as ([name b] & Hin & Hb). cbn in Hb. subst b.
  destruct (I3 _ _ Hin) as [[]|(key & p & Hk & _ & Ht)].
  now exists key, p.
Qed.

Lemma tool_check_true_is_genuine_witness :
  exists key p, In (key, p) default_registry
                /\ (fun _ : processor => Returns true) p = Returns true.
Proof.
  apply (tool_check_true_is_genuine posixpath default_registry
           (fun _ => Returns true) [("MKVProcessor"%string, true)]);
    reflexivity.
Defined.

End RegistryFacts.

(* ================================================================= *)
(** ** Container analysis *)

Module MkvFacts.
Import Pipeline Mkv.
Local Open Scope list_scope.

Lemma loop_track_readable (track : json) :
  readable_track track = true ->
  loop_track track
  = Returns (if is_subtitles track then Some (standard_entry track) else None).
Proof.
  unfold readable_track, loop_track, is_subtitles, has_member, standard_entry,
    member, property, subscript, get_or.
  destruct track as [| | | | | |m]; try discriminate.
  destruct (members_get m "type") as [ty|]; [|discriminate].
  cbn [and_then andb]. destruct (is_str ty "subtitles"); [|reflexivity].
  cbn [negb orb].
  destruct (members_get m "id") as [i|]; [|discriminate].
  destruct (members_get m "codec") as [c|]; [|discriminate].
  cbn [andb and_then].
  destruct (members_get m "properties") as [[| | | | | |props]|];
    try discriminate; reflexivity.
Qed.

Lemma tracks_loop_readable (items : list json) (acc : list subtitle_track) :
  forallb readable_track items = true ->
  tracks_loop items acc
  = Returns (acc ++ map standard_entry (filter is_subtitles items)).
Proof.
  revert acc. induction items as [|t items IH]; intros acc H.
  - cbn. now rewrite app_nil_r.
  - cbn [forallb] in H. apply andb_true_iff in H as [Ht Hrest].
    cbn [tracks_loop filter]. rewrite (loop_track_readable t Ht).
    cbn [and_then]. destruct (is_subtitles t).
    + rewrite (IH _ Hrest). cbn [map]. now rewrite <- app_assoc.
    + apply (IH _ Hrest).
Qed.

(** X7: when the analysis tool's answer lists tracks that each have a
    type, and the subtitle tracks among them an id, a codec and
    properties that are a dict (or none), the result is exactly the
    subtitle tracks in file order, each with its id and codec and with
    language, track name and default flag taken from its properties, or
    'und', '' and False where missing. *)
Theorem subtitle_tracks_are_filtered_in_order
        (m : list (string * json)) (items : list json) :
  members_get m "tracks" = Some (JArr items) ->
  forallb readable_track items = true ->
  get_subtitle_tracks (Returns (JObj m))
  = Returns (map standard_entry (filter is_subtitles items)).
Proof.
  intros Hm Hr. unfold get_subtitle_tracks. cbn [and_then get_or].
  rewrite Hm. cbn [iterate and_then].
  now rewrite (tracks_loop_readable items [] Hr).
Qed.

Lemma subtitle_tracks_are_filtered_in_order_witness :
  get_subtitle_tracks
    (Returns (JObj [("tracks"%string,
       JArr [ JObj [("id"%string, JInt 0); ("type"%string, JStr "video")];
              JObj [("id"%string, JInt 2); ("type"%string, JStr "subtitles");
                    ("codec"%string, JStr "SubStationAlpha")] ])]))
  = Returns [mk_subtitle_track (JInt 2) (JStr "SubStationAlpha")
               (JStr "und") (JStr "") (JBool false)].
Proof.
  apply (subtitle_tracks_are_filtered_in_order
           [("tracks"%string,
             JArr [ JObj [("id"%string, JInt 0); ("type"%string, JStr "video")];
                    JObj [("id"%string, JInt 2); ("type"%string, JStr "subtitles");
                          ("codec"%string, JStr "SubStationAlpha")] ])]
           _ eq_refl eq_refl).
Defined.

Lemma tracks_loop_poisoned (items : list json) (acc : list subtitle_track)
      (bad : json) :
  In bad items -> has_member bad "type" = false ->
  exists e, tracks_loop items acc = Raises e.
Proof.
  intros Hin Hbad. revert acc.
  induction items as [|t items IH]; intros acc; [contradiction|].
  cbn [tracks_loop]. destruct Hin as [->|Hin].
  - unfold loop_track, subscript.
    unfold has_member in Hbad.
    destruct bad as [| | | | | |m]; cbn [and_then]; eauto.
    destruct (members_get m "type"); [discriminate|]. cbn. eauto.
  - destruct (loop_track t) as [[entry|]|e]; cbn [and_then]; eauto.
Qed.

(** X8: one entry of the track list without a type, be it a subtitle
    track or not, makes the whole analysis raise: no track is
    returned. *)
Theorem track_without_type_fails_analysis
        (m : list (string * json)) (items : list json) (bad : json) :
  members_get m "tracks" = Some (JArr items) ->
  In bad items ->
  has_member bad "type" = false ->
  exists e, get_subtitle_tracks (Returns (JObj m)) = Raises e.
Proof.
  intros Hm Hin Hbad. unfold get_subtitle_tracks. cbn [and_then get_or].
  rewrite Hm. cbn [iterate and_then].
  now apply (tracks_loop_poisoned items [] bad).
Qed.

Lemma track_without_type_fails_analysis_witness :
  exists e,
    get_subtitle_tracks
      (Returns (JObj [("tracks"%string,
         JArr [ JObj [("id"%string, JInt 2); ("type"%string, JStr "subtitles");
                      ("codec"%string, JStr "SubRip/SRT")];
                JObj [("id"%string, JInt 3)] ])]))
    = Raises e.
Proof.
  apply (track_without_type_fails_analysis
           [("tracks"%string,
             JArr [ JObj [("id"%string, JInt 2); ("type"%string, JStr "subtitles");
                          ("codec"%string, JStr "SubRip/SRT")];
                    JObj [("id"%string, JInt 3)] ])]
           _ (JObj [("id"%string, JInt 3)]) eq_refl).
  - cbn. auto.
  - reflexivity.
Defined.

End MkvFacts.

(* ================================================================= *)
(** ** Validation and detection of subtitle files *)

Module SubtitleFileFacts.
Import PyStr Regex Detect Validate Notions StrFacts RegexFacts.

Lemma blank_app (a b : string) : blank (a ++ b) = blank a && blank b.
Proof.
  induction a as [|c a IH]; [reflexivity|].
  cbn [append blank]. now rewrite IH, andb_assoc.
Qed.

Lemma lstrip_blank (s : string) : blank s = true -> lstrip s = "".
Proof.
  induction s as [|c s IH]; [reflexivity|].
  cbn [blank lstrip]. intros H. apply andb_true_iff in H as [-> Hs]. auto.
Qed.

Lemma lstrip_blank_app (ws s : string) :
  blank ws = true -> lstrip (ws ++ s) = lstrip s.
Proof.
  induction ws as [|c ws IH]; [reflexivity|].
  cbn [blank append lstrip]. intros H. apply andb_true_iff in H as [-> Hs]. auto.
Qed.

Lemma lstrip_head (s : string) :
  lstrip s = "" \/ exists c r, lstrip s = String c r /\ isspace c = false.
Proof.
  induction s as [|c s IH]; [now left|].
  cbn [lstrip]. destruct (isspace c) eqn:E; [assumption|].
  right. now exists c, s.
Qed.

Lemma lstrip_empty_blank (s : string) : lstrip s = "" -> blank s = true.
Proof.
  induction s as [|c s IH]; [reflexivity|].
  cbn [lstrip blank]. destruct (isspace c); [auto | discriminate].
Qed.

Lemma rstrip_empty_blank (s : string) : rstrip s = "" -> blank s = true.
Proof.
  induction s as [|c s IH]; [reflexivity|].
  cbn [rstrip blank]. destruct (rstrip s) as [|d r].
  - destruct (isspace c); [auto | discriminate].
  - discriminate.
Qed.

(** [s.strip()] is empty exactly for a text of whitespace. *)
Lemma strip_empty_iff (s : string) : strip s = "" <-> blank s = true.
Proof.
  unfold strip. split.
  - intros H. apply rstrip_empty_blank in H.
    destruct (lstrip_head s) as [E|(c & r & E & Hc)].
    + now apply lstrip_empty_blank.
    + rewrite E in H. cbn [blank] in H. rewrite Hc in H. discriminate.
  - intros H. now rewrite (lstrip_blank s H).
Qed.

(** X9: a subtitle file passes validation exactly when it is a regular
    file that can be read and whose text has a character that is not
    whitespace. *)
Theorem validation_accepts_nonblank_files
        (isfile : string -> bool) (fs : Style.file_system)
        (read_error : string -> string) (subtitle_path : string) :
  fst (validate_subtitle_file isfile fs read_error subtitle_path) = true
  <-> isfile subtitle_path = true
      /\ exists content, fs subtitle_path = Some content /\ blank content = false.
Proof.
  unfold validate_subtitle_file.
  destruct (isfile subtitle_path); cbn [negb].
  2:{ cbn. split; [discriminate | intros [H _]; discriminate]. }
  destruct (fs subtitle_path) as [content|].
  2:{ cbn. split; [discriminate | intros [_ (c & H & _)]; discriminate]. }
  destruct (strip content) as [|c r] eqn:E; cbn [fst].
  - apply strip_empty_iff in E. split; [discriminate|].
    intros [_ (c & [= <-] & Hb)]. congruence.
  - split; [|reflexivity]. intros _. split; [reflexivity|].
    exists content. split; [reflexivity|].
    destruct (blank content) eqn:Hb; [|reflexivity].
    apply strip_empty_iff in Hb. congruence.
Qed.

Lemma validation_accepts_nonblank_files_witness :
  fst (validate_subtitle_file (fun _ => true)
         (fun _ => Some "WEBVTT"%string) (fun _ => ""%string) "subs.vtt") = true.
Proof.
  apply (proj2 (validation_accepts_nonblank_files (fun _ => true)
                  (fun _ => Some "WEBVTT"%string) (fun _ => ""%string) "subs.vtt")).
  split; [reflexivity|]. exists "WEBVTT"%string. split; reflexivity.
Defined.

Lemma digit_not_space (c : ascii) : digit c = true -> isspace c = false.
Proof.
  destruct c as [[] [] [] [] [] [] [] []]; intros H;
    try reflexivity; discriminate H.
Qed.

(** A word of the SRT pattern begins with a digit. *)
Lemma srt_word_head (m : string) :
  Matches srt_pattern m -> exists c r, m = String c r /\ digit c = true.
Proof.
  unfold srt_pattern, seq, plus, d. intros H.
  inversion H as [| |a b s1 s2 H1 H2| | | |]; subst.
  inversion H1 as [| |a b s11 s12 H11 H12| | | |]; subst.
  inversion H11 as [|p c Hp| | | | |]; subst.
  exists c. eexists. split; [reflexivity | assumption].
Qed.

Lemma detected_text_not_blank (content : string) :
  detect_content content <> "unknown" -> blank content = false.
Proof.
  unfold detect_content, startswith. intros H.
  destruct (contains "[Script Info]" content) eqn:Ea.
  - apply contains_iff in Ea as (pre & post & ->).
    rewrite !blank_app. cbn. now rewrite andb_false_r.
  - destruct (String.prefix "WEBVTT" (strip content)) eqn:Ev.
    + destruct (blank content) eqn:Hb; [|reflexivity].
      apply strip_empty_iff in Hb. rewrite Hb in Ev. discriminate.
    + destruct (search srt_pattern content) eqn:Es; [|contradiction].
      apply search_iff in Es as (pre & m & post & -> & Hm).
      destruct (srt_word_head m Hm) as (c & r & -> & Hc).
      rewrite !blank_app. cbn [blank].
      rewrite (digit_not_space c Hc). cbn. now rewrite andb_false_r.
Qed.

(** X10: a file whose format is detected (the answer is not 'unknown')
    is never an empty one: if it is a regular file, it passes
    validation. *)
Theorem detected_file_passes_validation
        (isfile : string -> bool) (fs : Style.file_system)
        (read_error : string -> string) (subtitle_path : string) :
  isfile subtitle_path = true ->
  detect_subtitle_format fs subtitle_path <> "unknown" ->
  fst (validate_subtitle_file isfile fs read_error subtitle_path) = true.
Proof.
  intros Hf Hd. unfold detect_subtitle_format in Hd.
  unfold validate_subtitle_file. rewrite Hf. cbn [negb].
  destruct (fs subtitle_path) as [content|]; [|contradiction].
  pose proof (detected_text_not_blank content Hd) as Hb.
  destruct (strip content) eqn:E; [|reflexivity].
  apply strip_empty_iff in E. congruence.
Qed.

Lemma detected_file_passes_validation_witness :
  fst (validate_subtitle_file (fun _ => true)
         (fun _ => Some Samples.ass_with_srt_block) (fun _ => ""%string)
         "extracted_2.ass") = true.
Proof.
  apply (detected_file_passes_validation (fun _ => true)
           (fun _ => Some Samples.ass_with_srt_block) (fun _ => ""%string)
           "extracted_2.ass" eq_refl).
  vm_compute. discriminate.
Defined.

Lemma contains_after_blank (p ws s : string) (x : ascii) (p' : string) :
  p = String x p' -> isspace x = false -> blank ws = true ->
  contains p (ws ++ s) = contains p s.
Proof.
  intros -> Hx. induction ws as [|w ws IH]; [reflexivity|].
  cbn [blank append]. intros H. apply andb_true_iff in H as [Hw Hws].
  cbn [contains]. rewrite prefix_cons.
  destruct (Ascii.eqb_spec x w) as [->|_]; [congruence|].
  cbn [andb orb]. auto.
Qed.

Lemma split_after_blank (ws pre rest s : string) (c : ascii) :
  blank ws = true -> isspace c = false ->
  pre ++ String c rest = ws ++ s ->
  exists pre', pre = ws ++ pre' /\ pre' ++ String c rest = s.
Proof.
  intros Hws Hc. revert pre. induction ws as [|w ws IH]; intros pre H.
  - now exists pre.
  - cbn [blank] in Hws. apply andb_true_iff in Hws as [Hw Hws].
    destruct pre as [|x pre]; cbn in H; injection H as -> H.
    + congruence.
    + destruct (IH Hws pre H) as (pre' & -> & H'). now exists pre'.
Qed.

Lemma search_srt_after_blank (ws s : string) :
  blank ws = true ->
  search srt_pattern (ws ++ s) = search srt_pattern s.
Proof.
  intros Hws.
  destruct (search srt_pattern s) eqn:E.
  - apply search_iff. apply search_iff in E as (pre & m & post & -> & Hm).
    exists (ws ++ pre), m, post. split; [now rewrite append_assoc | assumption].
  - destruct (search srt_pattern (ws ++ s)) eqn:E'; [|reflexivity].
    apply search_iff in E' as (pre & m & post & Heq & Hm).
    destruct (srt_word_head m Hm) as (c & r & -> & Hc).
    cbn [append] in Heq. symmetry in Heq.
    destruct (split_after_blank ws pre (r ++ post) s c Hws
                (digit_not_space c Hc) Heq) as (pre' & _ & Hs).
    assert (Hf : search srt_pattern s = true).
    { apply search_iff. exists pre', (String c r), post. now split. }
    congruence.
Qed.

(** X11: whitespace in front of the text (blank lines, indentation) does
    not change the format detected. *)
Theorem leading_whitespace_keeps_format (ws content : string) :
  blank ws = true ->
  detect_content (ws ++ content) = detect_content content.
Proof.
  intros Hws. unfold detect_content, startswith, strip.
  rewrite (contains_after_blank "[Script Info]" ws content "[" "Script Info]"
             eq_refl eq_refl Hws).
  rewrite (lstrip_blank_app ws content Hws).
  now rewrite (search_srt_after_blank ws content Hws).
Qed.

Lemma leading_whitespace_keeps_format_witness :
  detect_content ("
   " ++ "WEBVTT") = detect_content "WEBVTT".
Proof.
  apply (leading_whitespace_keeps_format "
   " "WEBVTT" eq_refl).
Defined.

End SubtitleFileFacts.

(* ================================================================= *)
(** ** The phases of a run *)

Module RunFacts.
Import PyStr Style Factory Pipeline Notions.
Local Open Scope list_scope.

Lemma bind_bind {A B C : Type} (m : M A) (f : A -> M B) (k : B -> M C)
      (st : run_state) :
  bind (bind m f) k st = bind m (fun x => bind (f x) k) st.
Proof. unfold bind. now destruct (m st) as [[x|b|e] s]. Qed.

Lemma bind_ret {A B : Type} (x : A) (k : A -> M B) (st : run_state) :
  bind (ret x) k st = k x st.
Proof. reflexivity. Qed.

Lemma bind_logger {B : Type} (lv : level) (msg : string) (k : unit -> M B)
      (st : run_state) :
  bind (logger lv msg) k st = k tt (say lv msg st).
Proof. reflexivity. Qed.

Lemma bind_does {B : Type} (e : event) (k : unit -> M B) (st : run_state) :
  bind (does e) k st = k tt (emit e st).
Proof. reflexivity. Qed.

Lemma bind_return {A B : Type} (b : bool) (k : A -> M B) (st : run_state) :
  bind (return_ b) k st = (Return b, st).
Proof. reflexivity. Qed.

Lemma bind_call {A B : Type} (o : outcome A) (k : A -> M B) (st : run_state) :
  bind (call o) k st
  = match o with
    | Returns x => k x st
    | Raises e => (Raise e, st)
    end.
Proof. now destruct o. Qed.

Lemma bind_when {B : Type} (c : bool) (m : M unit) (k : unit -> M B)
      (st : run_state) :
  bind (when_ c m) k st = if c then bind m k st else k tt st.
Proof. now destruct c. Qed.

Ltac early_exit H :=
  injection H as <- <-; cbn [say emit events];
  split; [reflexivity|]; split; [intros ? [=]; auto | intros ? [=]].

(** What the phases before styling settle: they add no action, they
    return early with [False] only, and they get through only when the
    input is a file, a tool is available, the extension is registered,
    the analysis returned tracks among which the selected one is, and
    the extraction returned [True]. *)
Lemma prepare_inversion (w : world) (a : arguments) (st st1 : run_state)
      (r : flow (string * string)) :
  prepare_subtitle w a st = (r, st1) ->
  events st1 = events st
  /\ (forall b, r = Return b -> b = false)
  /\ (forall paths, r = Next paths ->
        isfile w (input_video a) = true
        /\ (exists ts, check_tools_available w = Returns ts
                       /\ existsb snd ts = true)
        /\ can_process (os w) (processors w) (input_video a) = true
        /\ exists tracks t,
             get_subtitle_tracks w (input_video a) = Returns tracks
             /\ In t tracks
             /\ (forall n, track_id a = Some n -> id t = n)
             /\ (exists sub, extract_subtitle_track w (input_video a) (id t) sub
                             = Returns true)).
Proof.
  unfold prepare_subtitle. intros H.
  rewrite bind_when in H.
  destruct (isfile w (input_video a)) eqn:Efile; cbn [negb] in H.
  2:{ rewrite bind_bind, bind_logger, bind_return in H. early_exit H. }
  rewrite bind_call in H.
  destruct (check_tools_available w) as [ts|e] eqn:Etools; [|early_exit H].
  rewrite bind_when in H.
  destruct (existsb snd ts) eqn:Eany; cbn [negb] in H.
  2:{ rewrite bind_bind, bind_logger, bind_return in H. early_exit H. }
  rewrite bind_when in H.
  destruct (can_process (os w) (processors w) (input_video a)) eqn:Ecan;
    cbn [negb] in H.
  2:{ rewrite bind_bind, bind_logger, bind_return in H. early_exit H. }
  rewrite bind_call in H.
  destruct (create_temp_directory w) as [temp_dir|e]; [|early_exit H].
  eassert (Hout : exists output,
    bind (call (get_subtitle_tracks w (input_video a)))
         (fun subtitle_tracks => _) st = (r, st1)
    \/ exists e, (Raise e, st) = (r, st1)).
  { revert H. destruct (nonempty (output_video a)) as [o|].
    - rewrite bind_ret. intros H. exists o. left. exact H.
    - rewrite bind_call.
      destruct (generate_output_path w (input_video a)) as [o|e].
      + intros H. exists o. left. exact H.
      + intros H. exists EmptyString. right. exists e. exact H. }
  clear H. destruct Hout as [output [H|[e H]]]; [|early_exit H].
  rewrite bind_call in H.
  destruct (get_subtitle_tracks w (input_video a)) as [tracks|e] eqn:Etracks;
    [|early_exit H].
  rewrite bind_when in H.
  destruct tracks as [|t0 tracks'] eqn:Elist.
  { rewrite bind_bind, bind_logger, bind_return in H. early_exit H. }
  rewrite <- Elist in *.
  eassert (Hsel : exists t s,
    events s = events st /\ In t tracks
    /\ (forall n, track_id a = Some n -> id t = n)
    /\ bind (call (extract_subtitle_track w (input_video a) (id t)
                     (path_join w temp_dir
                        ("extracted_" ++ str_of_Z (id t) ++ ".ass")%string)))
            (fun extracted => _) s = (r, st1)
    \/ (exists s, (r, st1) = (Return false, s) /\ events s = events st)).
  { revert H. destruct (track_id a) as [wanted|].
    - destruct (find (fun t => Z.eqb (id t) wanted) tracks) as [t|] eqn:Ef.
      + rewrite bind_ret. intros H. exists t, st. left.
        destruct (find_some _ _ Ef) as [Hin Hid]. apply Z.eqb_eq in Hid.
        split; [reflexivity|]. split; [assumption|].
        split; [intros n [= <-]; assumption | exact H].
      + rewrite bind_bind, bind_logger, bind_return. intros H.
        exists t0, st. right. eexists. split; [symmetry; exact H | reflexivity].
    - rewrite Elist. rewrite bind_bind, bind_logger, bind_ret. intros H.
      exists t0, (say INFO ("Auto-selected track " ++ str_of_Z (id t0))%string st).
      left. split; [reflexivity|]. split; [now left|].
      split; [discriminate | exact H]. }
  clear H.
  destruct Hsel as (t & s & [(Hev & Hin & Hid & H) | (s' & H & Hev)]).
  2:{ injection H as -> ->.
      split; [assumption|]. split; [intros ? [=]; auto | intros ? [=]]. }
  rewrite bind_call in H.
  destruct (extract_subtitle_track w (input_video a) (id t) _)
    as [extracted|e] eqn:Eext.
  2:{ injection H as <- <-.
      split; [assumption|]. split; intros ? [=]. }
  rewrite bind_when in H. destruct extracted; cbn [negb] in H.
  2:{ rewrite bind_return in H. injection H as <- <-.
      split; [assumption|]. split; [intros ? [=]; auto | intros ? [=]]. }
  assert (Hgood :
    true = true
    /\ (exists ts0, Returns ts = Returns ts0 /\ existsb snd ts0 = true)
    /\ true = true
    /\ exists tracks0 t1,
         Returns tracks = Returns tracks0
         /\ In t1 tracks0
         /\ (forall n, track_id a = Some n -> id t1 = n)
         /\ (exists sub, extract_subtitle_track w (input_video a) (id t1) sub
                         = Returns true)).
  { split; [reflexivity|]. split; [eauto|]. split; [reflexivity|].
    exists tracks, t. repeat split; eauto. }
  destruct (String.eqb _ "ass").
  - injection H as <- <-. split; [assumption|].
    split; [intros ? [=] | intros ? _; exact Hgood].
  - rewrite bind_call in H.
    destruct (convert_to_ass w _ _) as [converted|e].
    2:{ injection H as <- <-. split; [assumption|]. split; intros ? [=]. }
    rewrite bind_when in H. destruct converted; cbn [negb] in H.
    + injection H as <- <-. split; [assumption|].
      split; [intros ? [=] | intros ? _; exact Hgood].
    + rewrite bind_return in H. injection H as <- <-.
      split; [assumption|]. split; [intros ? [=]; auto | intros ? [=]].
Qed.

(** Resolving the style configuration always goes on, adds no action,
    and an inline configuration is used only when it is not empty. *)
Lemma resolve_inversion (w : world) (a : arguments) (st : run_state) :
  exists c st1,
    resolve_style_config w a st = (Next c, st1)
    /\ events st1 = events st.
Proof.
  unfold resolve_style_config.
  destruct (nonempty (style_config_file a)) as [file|].
  - unfold bind, logger, ret.
    destruct (load_style_config w file st) as [c st'] eqn:E.
    exists (Some c), (say INFO ("Loaded style configuration from " ++ file)%string st').
    split; [reflexivity|]. cbn [say events].
    unfold load_style_config in E.
    destruct (open_config w file); [destruct (json_load w text) as [e|[doc|t]] |..];
      try destruct (truthy _); try destruct (value_len _);
      injection E as <- <-; reflexivity.
  - destruct (style_config a) as [c|]; [destruct (truthy c)|];
      eexists; eexists; split; reflexivity.
Qed.

(** What styling and merging do: never an early return; the actions
    added are first at most one of opening Aegisub and applying the
    style, the latter only with a configuration that is not empty, then
    at most the merge; the result [True] is the merge tool's. *)
Lemma style_and_merge_inversion (w : world) (a : arguments)
      (sub out : string) (c : option config_value)
      (st st' : run_state) (r : flow bool) :
  style_and_merge w a sub out c st = (r, st') ->
  (forall b, r <> Return b)
  /\ (r = Next true ->
      merge_video_with_subtitles w (input_video a) sub out = Returns true)
  /\ exists new,
       events st' = events st ++ new
       /\ ~ In CleanedUp new
       /\ (r = Next true -> In (Merged (input_video a) sub out) new)
       /\ (forall s x, In (AppliedStyle s x) new ->
             truthy x = true /\ c = Some x
             /\ forall s2, ~ In (OpenedAegisub s2) new)
       /\ (forall s2, In (OpenedAegisub s2) new ->
             manual_styling a = true
             /\ aegisub_is_available w = Returns true).
Proof.
  unfold style_and_merge, bind, call, logger, does, when_, ret, say, emit.
  destruct st as [l ev]. cbn [log events].
  destruct (manual_styling a);
    [destruct (aegisub_is_available w) as [[]|];
       [destruct (aegisub_open_for_styling w sub);
          [destruct (press_enter w)|]|..]|];
    try (destruct c as [x|]; [destruct (truthy x) eqn:Ex|]);
    try (destruct (merge_video_with_subtitles w (input_video a) sub out)
           as [[]|] eqn:Em);
    intros [= <- <-]; cbn [events];
    (split; [intros ? [=]|]); (split; [try reflexivity; intros [=]|]);
    eexists; (split; [rewrite <- ?app_assoc; cbn [app]; try reflexivity;
                      now rewrite app_nil_r|]);
    cbn [In]; unfold not;
    repeat split; intros;
    repeat match goal with
           | H : _ \/ _ |- _ => destruct H
           | H : False |- _ => destruct H
           | H : AppliedStyle _ _ = AppliedStyle _ _ |- _ => injection H as <- <-
           end;
    try discriminate; try congruence; auto.
Qed.

(** A run, phase by phase: it ends before styling with [False] and the
    clean-up as its only action, or it goes through styling and
    merging. *)
Lemma run_cases (w : world) (a : arguments) (st : run_state) :
  (fst (process_video_file w a st) = false
   /\ events (snd (process_video_file w a st)) = events st ++ [CleanedUp]
   /\ forall paths st1, prepare_subtitle w a st <> (Next paths, st1))
  \/ exists paths st1 c st2 r st3,
       prepare_subtitle w a st = (Next paths, st1)
       /\ resolve_style_config w a st1 = (Next c, st2)
       /\ style_and_merge w a (fst paths) (snd paths) c st2 = (r, st3)
       /\ events st2 = events st
       /\ fst (process_video_file w a st)
          = match r with Next b => b | _ => false end
       /\ events (snd (process_video_file w a st)) = events st3 ++ [CleanedUp].
Proof.
  remember (process_video_file w a st) as res eqn:Hres.
  unfold process_video_file, process_body, bind in Hres.
  destruct (prepare_subtitle w a st) as [[paths|b|e] st1] eqn:Ep;
    destruct (prepare_inversion w a st st1 _ Ep) as (Hev & Hret & _).
  - right.
    destruct (resolve_inversion w a st1) as (c & st2 & Er & Hev2).
    rewrite Er in Hres.
    destruct (style_and_merge w a (fst paths) (snd paths) c st2) as [r st3] eqn:Es.
    exists paths, st1, c, st2, r, st3.
    destruct (style_and_merge_inversion _ _ _ _ _ _ _ _ Es) as (Hnr & _).
    subst res. unfold handle_and_cleanup.
    repeat split; try reflexivity; try congruence;
      destruct r as [b|b|e]; cbn [fst snd emit say events]; try reflexivity.
    now destruct (Hnr b).
  - left. subst res. rewrite (Hret b eq_refl). unfold handle_and_cleanup.
    cbn [fst snd emit events]. rewrite Hev.
    repeat split. intros ? ? [=].
  - left. subst res. unfold handle_and_cleanup.
    cbn [fst snd emit say events]. rewrite Hev.
    repeat split. intros ? ? [=].
Qed.

(** X13: a run returns [True] only when the input is a file of a
    registered format, a tool is available, a track was extracted, and
    the merge was made and its tool returned [True]. *)
Theorem success_requires_merge (w : world) (a : arguments) (st : run_state) :
  fst (process_video_file w a st) = true ->
  isfile w (input_video a) = true
  /\ can_process (os w) (processors w) (input_video a) = true
  /\ (exists t sub, extract_subtitle_track w (input_video a) (id t) sub
                    = Returns true)
  /\ exists sub out,
       merge_video_with_subtitles w (input_video a) sub out = Returns true
       /\ In (Merged (input_video a) sub out)
             (events (snd (process_video_file w a st))).
Proof.
  intros Hok.
  destruct (run_cases w a st) as [(Hf & _)|(paths & st1 & c & st2 & r & st3 &
                                           Ep & Er & Es & _ & Hres & Hev)].
  - congruence.
  - rewrite Hres in Hok.
    destruct (prepare_inversion _ _ _ _ _ Ep) as (_ & _ & Hnext).
    destruct (Hnext paths eq_refl)
      as (Hfile & _ & Hcan & tracks & t & _ & _ & _ & sub & Hext).
    destruct (style_and_merge_inversion _ _ _ _ _ _ _ _ Es)
      as (_ & Hmerge & new & Hnew & _ & Hin & _).
    assert (Hr : r = Next true) by (destruct r as [[]| |]; congruence).
    split; [assumption|]. split; [assumption|]. split; [eauto|].
    exists (fst paths), (snd paths). split; [auto|].
    rewrite Hev, Hnew, !in_app_iff. auto.
Qed.

Lemma success_requires_merge_witness :
  exists sub out,
    merge_video_with_subtitles Samples.all_fine_but_style_file "movie.mkv" sub out
    = Returns true
    /\ In (Merged "movie.mkv" sub out)
          (events (snd (process_video_file Samples.all_fine_but_style_file
                          Samples.run_with_missing_style_file
                          (mk_run_state [] [])))).
Proof.
  apply (success_requires_merge Samples.all_fine_but_style_file
           Samples.run_with_missing_style_file (mk_run_state [] []) eq_refl).
Defined.

(** X14: when the input is no file, no tool is available, the extension
    is not registered, the analysis finds no subtitle track, or the
    requested track is not among those found, the run returns [False]
    and its only action is the clean-up: nothing is styled or merged. *)
Theorem run_stops_before_styling (w : world) (a : arguments) (st : run_state) :
  isfile w (input_video a) = false
  \/ (exists ts, check_tools_available w = Returns ts /\ existsb snd ts = false)
  \/ can_process (os w) (processors w) (input_video a) = false
  \/ get_subtitle_tracks w (input_video a) = Returns []
  \/ (exists n ts, track_id a = Some n
                   /\ get_subtitle_tracks w (input_video a) = Returns ts
                   /\ find (fun t => Z.eqb (id t) n) ts = None) ->
  fst (process_video_file w a st) = false
  /\ events (snd (process_video_file w a st)) = events st ++ [CleanedUp].
Proof.
  intros Hstop.
  destruct (run_cases w a st) as [(Hf & He & _)|(paths & st1 & c & st2 & r & st3 &
                                                Ep & _)]; [auto|].
  exfalso.
  destruct (prepare_inversion _ _ _ _ _ Ep) as (_ & _ & Hnext).
  destruct (Hnext paths eq_refl)
    as (Hfile & (ts & Hts & Hany) & Hcan & tracks & t & Htr & Hin & Hid & _).
  destruct Hstop as [H|[(ts' & H & H')|[H|[H|(n & ts' & Hn & H & Hfind)]]]].
  - congruence.
  - rewrite Hts in H. injection H as <-. congruence.
  - congruence.
  - rewrite Htr in H. injection H as ->. destruct Hin.
  - rewrite Htr in H. injection H as <-.
    pose proof (find_none _ _ Hfind t Hin) as Hf. cbn in Hf.
    rewrite (Hid n Hn), Z.eqb_refl in Hf. discriminate.
Qed.

Lemma run_stops_before_styling_witness :
  fst (process_video_file Samples.all_fine_but_style_file
         (mk_arguments "movie.mkv" None (Some 7%Z) None None false)
         (mk_run_state [] [])) = false.
Proof.
  apply (proj1 (run_stops_before_styling Samples.all_fine_but_style_file
           (mk_arguments "movie.mkv" None (Some 7%Z) None None false)
           (mk_run_state [] [])
           (or_intror (or_intror (or_intror (or_intror
              (ex_intro _ 7%Z (ex_intro _ [mk_track 2 "SubStationAlpha" "eng"]
                 (conj eq_refl (conj eq_refl eq_refl)))))))))).
Defined.

(** X15: in one run the subtitle file is either handed to Aegisub or
    patched with the style configuration, never both; it is patched
    only with a configuration that is not empty, and handed to Aegisub
    only when manual styling is asked for and Aegisub is available. *)
Theorem styling_is_manual_or_automatic (w : world) (a : arguments) (st : run_state) :
  events st = [] ->
  let done := events (snd (process_video_file w a st)) in
  (forall s c, In (AppliedStyle s c) done ->
     truthy c = true /\ forall s2, ~ In (OpenedAegisub s2) done)
  /\ (forall s2, In (OpenedAegisub s2) done ->
      manual_styling a = true /\ aegisub_is_available w = Returns true).
Proof.
  intros Hst done. subst done.
  destruct (run_cases w a st) as [(_ & He & _)|(paths & st1 & c & st2 & r & st3 &
                                               _ & _ & Es & Hev2 & _ & Hev)].
  - rewrite He, Hst. cbn [app In].
    split; [intros ? ? [[=]|[]] | intros ? [[=]|[]]].
  - destruct (style_and_merge_inversion _ _ _ _ _ _ _ _ Es)
      as (_ & _ & new & Hnew & _ & _ & Happ & Hopen).
    rewrite Hev, Hnew, Hev2, Hst. cbn [app].
    split.
    + intros s x Hin. apply in_app_iff in Hin as [Hin|[[=]|[]]].
      destruct (Happ s x Hin) as (Ht & _ & Hno).
      split; [assumption|]. intros s2 H2.
      apply in_app_iff in H2 as [H2|[[=]|[]]]. exact (Hno s2 H2).
    + intros s2 Hin. apply in_app_iff in Hin as [Hin|[[=]|[]]]. eauto.
Qed.

Lemma styling_is_manual_or_automatic_witness :
  events (mk_run_state [] []) = []
  /\ truthy (Dict [("bold"%string, PInt 1)]) = true
  /\ forall s2,
       ~ In (OpenedAegisub s2)
            (events (snd (process_video_file Samples.all_fine_but_style_file
                            (mk_arguments "movie.mkv" None None
                               (Some (Dict [("bold"%string, PInt 1)])) None true)
                            (mk_run_state [] [])))).
Proof.
  split; [reflexivity|].
  refine (proj1 (styling_is_manual_or_automatic Samples.all_fine_but_style_file
           (mk_arguments "movie.mkv" None None
              (Some (Dict [("bold"%string, PInt 1)])) None true)
           (mk_run_state [] []) eq_refl) _ (Dict [("bold"%string, PInt 1)]) _).
  vm_compute. left. reflexivity.
Defined.

(** X16: whatever happens in a run, the clean-up is its last action and
    happens once. *)
Theorem cleanup_is_last_and_once (w : world) (a : arguments) (st : run_state) :
  exists new,
    events (snd (process_video_file w a st)) = events st ++ new ++ [CleanedUp]
    /\ ~ In CleanedUp new.
Proof.
  destruct (run_cases w a st) as [(_ & He & _)|(paths & st1 & c & st2 & r & st3 &
                                               _ & _ & Es & Hev2 & _ & Hev)].
  - exists []. split; [exact He | intros []].
  - destruct (style_and_merge_inversion _ _ _ _ _ _ _ _ Es)
      as (_ & _ & new & Hnew & Hno & _).
    exists new. split; [|assumption].
    now rewrite Hev, Hnew, Hev2, <- app_assoc.
Qed.

End RunFacts.

(* ================================================================= *)
(** ** Loading the style file *)

Module LoadFacts.
Import PyStr Style Factory Pipeline.
Local Open Scope list_scope.

(** X12: loading a style file logs exactly one record, at INFO, WARNING
    or ERROR, and does nothing else.  The value returned is true exactly
    when the record is at INFO.  On an ERROR (missing file, read error,
    text that is not JSON, a document that is not an object, a
    [subtitle_style] that is true but has no length) the empty dict is
    returned.  Otherwise the value returned is the [subtitle_style]
    member of the document as it is, or the empty dict when the document
    has no such member: with a WARNING it is any false value, not always
    a dict, and with INFO it is a dict, a string or a list. *)
Theorem load_style_config_outcomes (w : world) (config_path : string) (st : run_state) :
  let c := fst (load_style_config w config_path st) in
  let st' := snd (load_style_config w config_path st) in
  events st' = events st
  /\ exists lv msg,
       log st' = log st ++ [(lv, msg)]
       /\ (lv = INFO \/ lv = WARNING \/ lv = ERROR)
       /\ (truthy c = true <-> lv = INFO)
       /\ (lv = ERROR -> c = Dict [])
       /\ (lv <> ERROR ->
           exists text members,
             open_config w config_path = FileText text
             /\ json_load w text = inr (Object members)
             /\ c = get_subtitle_style members)
       /\ (lv = INFO -> exists n, value_len c = inr n).
Proof.
  unfold load_style_config.
  destruct (open_config w config_path) as [text| |e].
  - destruct (json_load w text) as [e|[members|t]] eqn:Ej.
    + cbn. split; [reflexivity|]. eexists; eexists. split; [reflexivity|].
      repeat split; try discriminate; auto. now intros H; elim H.
    + destruct (truthy (get_subtitle_style members)) eqn:Et.
      * destruct (value_len (get_subtitle_style members)) as [e|n] eqn:El;
          cbn [fst snd say log events].
        -- split; [reflexivity|]. eexists; eexists. split; [reflexivity|].
           repeat split; try discriminate; auto. now intros H; elim H.
        -- split; [reflexivity|]. eexists; eexists. split; [reflexivity|].
           rewrite Et. repeat split; try discriminate; eauto.
      * cbn [fst snd say log events].
        split; [reflexivity|]. eexists; eexists. split; [reflexivity|].
        rewrite Et. repeat split; try discriminate; eauto.
    + cbn. split; [reflexivity|]. eexists; eexists. split; [reflexivity|].
      repeat split; try discriminate; auto. now intros H; elim H.
  - cbn. split; [reflexivity|]. eexists; eexists. split; [reflexivity|].
    repeat split; try discriminate; auto. now intros H; elim H.
  - cbn. split; [reflexivity|]. eexists; eexists. split; [reflexivity|].
    repeat split; try discriminate; auto. now intros H; elim H.
Qed.

(** A document whose [subtitle_style] is [null]: a WARNING, and [None]
    is what the caller gets. *)
Lemma load_style_config_outcomes_witness :
  exists text members,
    open_config (mk_world posixpath default_registry
                   (fun _ => FileText "{}")
                   (fun _ => inr (Object [("subtitle_style"%string, NoneValue)]))
                   (fun _ => true) (Returns []) (Returns ""%string)
                   (fun _ => Returns ""%string) (fun a _ => a)
                   (fun _ => Returns []) (fun _ _ _ => Returns true)
                   (fun _ => None) (fun _ _ => Returns true) (Returns false)
                   (fun _ => Returns true) (Returns tt)
                   (fun _ _ _ => Returns true)) "style.json"
    = FileText text
    /\ (fun _ : string => @inr string _ (Object [("subtitle_style"%string, NoneValue)])) text
       = inr (Object members)
    /\ NoneValue = get_subtitle_style members.
Proof.
  destruct (load_style_config_outcomes
              (mk_world posixpath default_registry
                 (fun _ => FileText "{}")
                 (fun _ => inr (Object [("subtitle_style"%string, NoneValue)]))
                 (fun _ => true) (Returns []) (Returns ""%string)
                 (fun _ => Returns ""%string) (fun a _ => a)
                 (fun _ => Returns []) (fun _ _ _ => Returns true)
                 (fun _ => None) (fun _ _ => Returns true) (Returns false)
                 (fun _ => Returns true) (Returns tt)
                 (fun _ _ _ => Returns true))
              "style.json" (mk_run_state [] []))
    as (_ & lv & msg & Hlog & _ & _ & _ & Hmember & _).
  apply Hmember. cbn in Hlog. injection Hlog as <- _. discriminate.
Defined.

End LoadFacts.

(* ================================================================= *)
(** ** The command line *)

Module CliFacts.
Import PyStr Style Factory Pipeline Cli StrFacts.
Local Open Scope list_scope.

Lemma inline_style_ignored (w : world) (st : run_state)
      (input : string) (output : option string) (track : option Z)
      (c1 c2 : option config_value) (file : option string) (manual : bool) :
  nonempty file <> None ->
  process_video_file w (mk_arguments input output track c1 file manual) st
  = process_video_file w (mk_arguments input output track c2 file manual) st.
Proof.
  intros Hfile. unfold process_video_file, process_body, bind.
  change (prepare_subtitle w (mk_arguments input output track c1 file manual))
    with (prepare_subtitle w (mk_arguments input output track c2 file manual)).
  destruct (prepare_subtitle w _ st) as [[paths|b|e] st1]; [|reflexivity..].
  unfold resolve_style_config. cbn [style_config_file].
  destruct (nonempty file) as [f|]; [reflexivity | contradiction].
Qed.

(** X17: when a configuration file is named with [-c], the options
    [--font-name] and [--font-size] change nothing: the run, its log and
    the exit status are those of the same command without them. *)
Theorem quick_options_ignored_with_config_file
        (w : world) (args : cli_arguments) (st : run_state) :
  nonempty (arg_config args) <> None ->
  cli_run w args st = cli_run w (without_quick_options args) st.
Proof.
  intros H. unfold cli_run, without_quick_options.
  cbn [arg_input arg_output arg_track arg_config arg_no_manual].
  now rewrite (inline_style_ignored w st _ _ _
                 (if truthy (Dict (cli_style_config args))
                  then Some (Dict (cli_style_config args)) else None)
                 (if truthy (Dict (cli_style_config
                               (mk_cli_arguments (arg_input args) (arg_output args)
                                  (arg_track args) (arg_config args)
                                  (arg_no_manual args) None None)))
                  then Some (Dict (cli_style_config
                               (mk_cli_arguments (arg_input args) (arg_output args)
                                  (arg_track args) (arg_config args)
                                  (arg_no_manual args) None None)))
                  else None) _ _ H).
Qed.

Lemma quick_options_ignored_with_config_file_witness :
  cli_run Samples.all_fine_but_style_file
    (mk_cli_arguments "movie.mkv" None None (Some "style.json"%string) true
       (Some "Verdana"%string) (Some 28%Z))
    (mk_run_state [] [])
  = cli_run Samples.all_fine_but_style_file
      (without_quick_options
         (mk_cli_arguments "movie.mkv" None None (Some "style.json"%string) true
            (Some "Verdana"%string) (Some 28%Z)))
      (mk_run_state [] []).
Proof.
  apply (quick_options_ignored_with_config_file Samples.all_fine_but_style_file
           (mk_cli_arguments "movie.mkv" None None (Some "style.json"%string) true
              (Some "Verdana"%string) (Some 28%Z))
           (mk_run_state [] [])).
  discriminate.
Defined.

(** X18: the style line synthesized from the quick options has the font
    name and the font size asked for in its second and third field and
    the defaults everywhere else; an empty font name and the size 0
    count as not given, so that Arial and 20 stand in. *)
Theorem quick_options_style_line (args : cli_arguments) :
  create_ass_style_line (cli_style_config args) "Default"
  = ("Style: Default," ++ cli_font args ++ "," ++ cli_size args
     ++ ",&H00FFFFFF,&H000000FF,&H00000000,&H80000000,0,0,0,0,100,100,0,0,1,2,0,2,10,10,10,1")%string.
Proof.
  unfold cli_style_config, cli_font, cli_size, create_ass_style_line.
  destruct (arg_font_name args) as [name|];
    [destruct (String.eqb name "")|];
    (destruct (arg_font_size args) as [size|];
       [destruct (Z.eqb size 0)|]);
    cbn [style_set dict_get String.eqb Ascii.eqb Bool.eqb py_str];
    rewrite ?append_assoc; reflexivity.
Qed.

End CliFacts.

(* ================================================================= *)
(** ** The temporary directory *)

Module TempDirFacts.
Import Pipeline TempDir.
Local Open Scope list_scope.

(** X19: cleaning up twice is cleaning up once: the second call changes
    nothing and logs nothing, whether the removal worked or not. *)
Theorem cleanup_twice_is_once
        (rmtree : (string -> bool) -> string -> (string -> bool) * option string)
        (m : manager) :
  cleanup_temp_directory rmtree (cleanup_temp_directory rmtree m)
  = cleanup_temp_directory rmtree m.
Proof.
  unfold cleanup_temp_directory at 2 3.
  destruct (temp_dir m) as [d|] eqn:Ed.
  - destruct (negb (String.eqb d "") && present m d) eqn:Ec.
    + destruct (rmtree (present m) d) as [fs [e|]]; reflexivity.
    + unfold cleanup_temp_directory. now rewrite Ed, Ec.
  - unfold cleanup_temp_directory. now rewrite Ed.
Qed.

(** X20: after a clean-up no existing directory is remembered: the
    reference is dropped when the directory was there, also when its
    removal raised (which is logged as a warning, not raised again), and
    otherwise the manager is left as it was. *)
Theorem cleanup_forgets_existing_directory
        (rmtree : (string -> bool) -> string -> (string -> bool) * option string)
        (m : manager) :
  let m' := cleanup_temp_directory rmtree m in
  (forall d, temp_dir m' = Some d -> d <> EmptyString -> present m' d = false)
  /\ (temp_dir m' = None \/ m' = m)
  /\ (forall d e fs,
        temp_dir m = Some d -> d <> EmptyString -> present m d = true ->
        rmtree (present m) d = (fs, Some e) ->
        temp_dir m' = None
        /\ exists msg, manager_log m' = manager_log m ++ [(WARNING, msg)]).
Proof.
  unfold cleanup_temp_directory.
  destruct (temp_dir m) as [d|] eqn:Ed.
  - destruct (String.eqb_spec d "") as [->|Hne]; cbn [negb andb].
    + rewrite Ed. split; [|split].
      * intros d0 [= <-] H. contradiction.
      * now right.
      * intros d0 e0 fs0 [= <-] H. contradiction.
    + destruct (present m d) eqn:Ep.
      * destruct (rmtree (present m) d) as [fs [e|]] eqn:Er; cbn [temp_dir];
          (split; [discriminate|]); (split; [now left|]).
        -- intros d0 e0 fs0 _ _ _ _. split; [reflexivity|]. cbn. eauto.
        -- intros d0 e0 fs0 [= <-] _ _ H. rewrite Er in H. discriminate.
      * rewrite Ed. split; [|split].
        -- intros d0 [= <-] _. assumption.
        -- now right.
        -- intros d0 e0 fs0 [= <-] _ H. congruence.
  - rewrite Ed. split; [discriminate|]. split; [now left | discriminate].
Qed.

Lemma cleanup_forgets_existing_directory_witness :
  temp_dir (cleanup_temp_directory
              (fun fs d => (fs, Some "Permission denied"%string))
              (mk_manager (Some "/tmp/mkv_subtitle_ab12"%string) (fun _ => true) []))
  = None.
Proof.
  apply (proj2 (proj2 (cleanup_forgets_existing_directory
           (fun fs d => (fs, Some "Permission denied"%string))
           (mk_manager (Some "/tmp/mkv_subtitle_ab12"%string) (fun _ => true) [])))
           "/tmp/mkv_subtitle_ab12"%string "Permission denied"%string (fun _ => true)
           eq_refl ltac:(discriminate) eq_refl eq_refl).
Defined.

End TempDirFacts.

(* ================================================================= *)
(** ** The queue *)

Module QueueFacts.
Import PyStr Factory Pipeline Queue RegistryFacts.
Local Open Scope list_scope.

Lemma grows_refl (os : os_path) (reg : registry) (q : list string) :
  grows os reg q q.
Proof.
  split; [auto|]. exists []. split; [now rewrite app_nil_r | intros ? []].
Qed.

Lemma grows_trans (os : os_path) (reg : registry) (q1 q2 q3 : list string) :
  grows os reg q1 q2 -> grows os reg q2 q3 -> grows os reg q1 q3.
Proof.
  intros [N1 (a1 & -> & H1)] [N2 (a2 & -> & H2)]. split; [auto|].
  exists (a1 ++ a2). split; [now rewrite app_assoc|].
  intros f Hf. apply in_app_iff in Hf as [Hf|Hf]; auto.
Qed.

Lemma add_file_grows (os : os_path) (reg : registry) (q : list string) (f : string) :
  can_process os reg f = true -> grows os reg q (add_file_to_queue q f).
Proof.
  intros Hf. unfold add_file_to_queue.
  destruct (existsb (String.eqb f) q) eqn:E; [apply grows_refl|].
  split.
  - intros Hq. apply NoDup_app; [assumption | repeat constructor; auto |].
    intros x Hx [<-|[]]. apply existsb_eqb_In in Hx. congruence.
  - exists [f]. split; [reflexivity|]. now intros x [<-|[]].
Qed.

Lemma add_files_grow (os : os_path) (reg : registry) (fs q : list string) :
  (forall f, In f fs -> can_process os reg f = true) ->
  grows os reg q (fold_left add_file_to_queue fs q).
Proof.
  revert q. induction fs as [|f fs IH]; intros q H; [apply grows_refl|].
  cbn [fold_left]. eapply grows_trans.
  - apply add_file_grows. apply H. now left.
  - apply IH. intros x Hx. apply H. now right.
Qed.

Lemma add_folder_grows (os : os_path) (reg : registry) (found q : list string) :
  grows os reg q (add_folder_to_queue os reg found q).
Proof.
  unfold add_folder_to_queue. apply add_files_grow.
  intros f Hf. now apply filter_In in Hf.
Qed.

(** X21: dropping files and folders on the window only appends to the
    queue, appends only paths whose extension is registered, and never
    makes the queue hold a path twice. *)
Theorem drop_keeps_queue_distinct
        (os : os_path) (reg : registry) (isfile isdir : string -> bool)
        (walk : string -> list string) (files queue : list string) :
  NoDup queue ->
  NoDup (handle_drop os reg isfile isdir walk files queue)
  /\ exists added,
       handle_drop os reg isfile isdir walk files queue = queue ++ added
       /\ forall f, In f added -> can_process os reg f = true.
Proof.
  intros Hq.
  enough (H : grows os reg queue (handle_drop os reg isfile isdir walk files queue))
    by (destruct H as [N E]; auto).
  clear Hq. unfold handle_drop. revert queue.
  induction files as [|f files IH]; intros queue; [apply grows_refl|].
  cbn [fold_left]. eapply grows_trans; [|apply IH].
  destruct (isfile f && can_process os reg f) eqn:E.
  - apply andb_true_iff in E as [_ E]. now apply add_file_grows.
  - destruct (isdir f); [apply add_folder_grows | apply grows_refl].
Qed.

Lemma drop_keeps_queue_distinct_witness :
  NoDup (handle_drop posixpath default_registry (fun _ => true) (fun _ => false)
           (fun _ => []) ["a.mkv"%string; "b.txt"%string; "a.mkv"%string]
           ["c.mkv"%string]).
Proof.
  apply (proj1 (drop_keeps_queue_distinct posixpath default_registry
           (fun _ => true) (fun _ => false) (fun _ => [])
           ["a.mkv"%string; "b.txt"%string; "a.mkv"%string] ["c.mkv"%string]
           ltac:(repeat constructor; cbn; tauto))).
Defined.

Lemma batch_counts (attempt : string -> outcome bool) (files : list string)
      (processed failed : nat) :
  fst (batch attempt files processed failed)
  = (processed + List.length (filter (succeeded attempt) files))%nat
  /\ (fst (batch attempt files processed failed)
      + snd (batch attempt files processed failed)
      = processed + failed + List.length files)%nat.
Proof.
  revert processed failed.
  induction files as [|f files IH]; intros processed failed.
  - cbn. lia.
  - cbn [batch filter]. unfold succeeded at 1.
    destruct (IH (processed + 1)%nat failed) as [A1 A2].
    destruct (IH processed (failed + 1)%nat) as [B1 B2].
    destruct (attempt f) as [[]|e]; cbn [List.length]; lia.
Qed.

(** X22: at the end of a batch every file was counted once: the files
    processed are those whose run returned [True], and processed plus
    failed is the number of files, an exception counting as a
    failure. *)
Theorem batch_counts_every_file (attempt : string -> outcome bool)
        (files : list string) :
  fst (batch attempt files 0 0) = List.length (filter (succeeded attempt) files)
  /\ (fst (batch attempt files 0 0) + snd (batch attempt files 0 0)
      = List.length files)%nat.
Proof.
  destruct (batch_counts attempt files 0 0) as [H1 H2]. split; lia.
Qed.

End QueueFacts.

(* ================================================================= *)
(** ** The Aegisub launcher *)

Module AegisubFacts.
Import PyStr Factory Pipeline Aegisub Notions StrFacts Dispatch.

Lemma isspace_lower_char (c : ascii) : isspace (lower_char c) = isspace c.
Proof. destruct c as [[] [] [] [] [] [] [] []]; reflexivity. Qed.

Lemma lower_char_nl (c : ascii) :
  Ascii.eqb (lower_char c) nl = Ascii.eqb c nl.
Proof. destruct c as [[] [] [] [] [] [] [] []]; reflexivity. Qed.

Lemma lower_cons (c : ascii) (s : string) :
  lower (String c s) = String (lower_char c) (lower s).
Proof. reflexivity. Qed.

Lemma lower_lstrip (s : string) : lower (lstrip s) = lstrip (lower s).
Proof.
  induction s as [|c s IH]; [reflexivity|].
  rewrite lower_cons. cbn [lstrip]. rewrite isspace_lower_char.
  destruct (isspace c); [exact IH | reflexivity].
Qed.

Lemma lower_rstrip (s : string) : lower (rstrip s) = rstrip (lower s).
Proof.
  induction s as [|c s IH]; [reflexivity|].
  rewrite lower_cons. cbn [rstrip]. rewrite <- IH, isspace_lower_char.
  destruct (rstrip s); [destruct (isspace c)|]; reflexivity.
Qed.

Lemma lower_strip (s : string) : lower (strip s) = strip (lower s).
Proof. unfold strip. now rewrite lower_rstrip, lower_lstrip. Qed.

Lemma lower_split_nl (s : string) :
  split_nl (lower s) = map lower (split_nl s).
Proof.
  induction s as [|c s IH]; [reflexivity|].
  rewrite lower_cons. cbn [split_nl]. rewrite lower_char_nl, IH.
  destruct (Ascii.eqb c nl); [reflexivity|].
  destruct (split_nl s); reflexivity.
Qed.

(** [rstrip] never goes past a character that is not whitespace. *)
Lemma rstrip_keeps (u : string) (y : ascii) (b : string) :
  isspace y = false -> rstrip (u ++ String y b) = u ++ String y (rstrip b).
Proof.
  intros Hy. induction u as [|c u IH].
  - cbn [append rstrip]. destruct (rstrip b); [now rewrite Hy | reflexivity].
  - cbn [append rstrip]. rewrite IH. now destruct u.
Qed.

Lemma rstrip_idem (s : string) : rstrip (rstrip s) = rstrip s.
Proof.
  induction s as [|c s IH]; [reflexivity|].
  cbn [rstrip]. destruct (rstrip s) as [|d r] eqn:E.
  - destruct (isspace c) eqn:Ec; [reflexivity|]. cbn [rstrip]. now rewrite Ec.
  - change (rstrip (String c (String d r)))
      with (match rstrip (String d r) with
            | "" => if isspace c then "" else String c ""
            | String d' r' => String c (String d' r')
            end).
    now rewrite IH.
Qed.

Lemma lstrip_starts (s : string) :
  lstrip s = "" \/ exists c r, lstrip s = String c r /\ isspace c = false.
Proof.
  induction s as [|c s IH]; [now left|].
  cbn [lstrip]. destruct (isspace c) eqn:E; [assumption|].
  right. now exists c, s.
Qed.

(** [s.strip().strip() == s.strip()] *)
Lemma strip_idem (s : string) : strip (strip s) = strip s.
Proof.
  unfold strip. destruct (lstrip_starts s) as [->|(c & r & -> & Hc)].
  - reflexivity.
  - pose proof (rstrip_keeps "" c r Hc) as E. cbn [append] in E.
    rewrite E. cbn [lstrip]. rewrite Hc, <- E. apply rstrip_idem.
Qed.

Lemma substring_refl (s : string) : Substring s s.
Proof. exists "", "". now rewrite append_nil_r. Qed.

Lemma substring_trans (a b c : string) :
  Substring a b -> Substring b c -> Substring a c.
Proof.
  intros (p1 & q1 & ->) (p2 & q2 & ->).
  exists (p2 ++ p1), (q1 ++ q2). now rewrite !append_assoc.
Qed.

Lemma lstrip_substring (s : string) : Substring (lstrip s) s.
Proof.
  induction s as [|c s IH]; [apply substring_refl|].
  cbn [lstrip]. destruct (isspace c); [|apply substring_refl].
  destruct IH as (p & q & E). exists (String c p), q. cbn [append]. now f_equal.
Qed.

Lemma rstrip_substring (s : string) : Substring (rstrip s) s.
Proof.
  assert (H : exists ws, s = rstrip s ++ ws).
  { induction s as [|c s [ws IH]]; [now exists ""|].
    cbn [rstrip]. destruct (rstrip s) as [|d r].
    - destruct (isspace c).
      + exists (String c ws). cbn [append] in *. now f_equal.
      + exists ws. cbn [append] in *. now f_equal.
    - exists ws. cbn [append] in *. now f_equal. }
  destruct H as [ws H]. now exists "", ws.
Qed.

Lemma strip_substring (s : string) : Substring (strip s) s.
Proof.
  unfold strip.
  exact (substring_trans _ _ _ (rstrip_substring _) (lstrip_substring s)).
Qed.

Lemma joined_line_substring (lines : list string) (l : string) :
  In l lines -> Substring l (join_nl lines).
Proof.
  induction lines as [|a [|b r] IH]; [contradiction| |].
  - intros [->|[]]. unfold join_nl. cbn [String.concat]. apply substring_refl.
  - rewrite join_cons2. intros [->|Hin].
    + exists "", (String nl (join_nl (b :: r))). reflexivity.
    + destruct (IH Hin) as (p & q & E).
      exists (a ++ String nl p), q. rewrite E, append_assoc. reflexivity.
Qed.

(** A line of a text is a part of it. *)
Lemma line_substring (s l : string) : In l (split_nl s) -> Substring l s.
Proof.
  intros H. rewrite <- (join_split s). now apply joined_line_substring.
Qed.

Lemma has_nl_substring (a b : string) :
  Substring a b -> has_nl b = false -> has_nl a = false.
Proof.
  intros Hab Hb. destruct (has_nl a) eqn:Ha; [|reflexivity].
  unfold has_nl in *. apply contains_iff in Ha.
  apply (substring_trans _ _ _ Ha), contains_iff in Hab. congruence.
Qed.

Lemma contains_lstrip (p s : string) (x : ascii) (p' : string) :
  p = String x p' -> isspace x = false ->
  contains p s = true -> contains p (lstrip s) = true.
Proof.
  intros -> Hx. induction s as [|c s IH]; [auto|].
  cbn [lstrip]. destruct (isspace c) eqn:Ec; [|auto].
  cbn [contains]. rewrite prefix_cons.
  destruct (Ascii.eqb_spec x c) as [->|_]; [congruence|]. exact IH.
Qed.

Lemma contains_rstrip (q : string) (y : ascii) (s : string) :
  isspace y = false ->
  contains (q ++ String y "") s = true ->
  contains (q ++ String y "") (rstrip s) = true.
Proof.
  intros Hy H. apply contains_iff in H as (pre & post & ->).
  apply contains_iff. exists pre, (rstrip post).
  rewrite <- !append_assoc. cbn [append].
  rewrite (append_assoc (pre ++ q) (String y "") post). cbn [append].
  rewrite rstrip_keeps by assumption.
  now rewrite !append_assoc.
Qed.

(** Stripping keeps a mention of the program. *)
Lemma mentions_strip (s : string) :
  mentions_version s = true -> mentions_version (strip s) = true.
Proof.
  unfold mentions_version. rewrite lower_strip. unfold strip.
  intros H. apply orb_true_iff in H as [H|H]; apply orb_true_iff; [left|right].
  - apply (contains_rstrip "aegisu" "b"); [reflexivity|].
    now apply (contains_lstrip _ _ "a" "egisub").
  - apply (contains_rstrip "versio" "n"); [reflexivity|].
    now apply (contains_lstrip _ _ "v" "ersion").
Qed.

Lemma prefix_first_line (p s : string) :
  has_nl p = false -> String.prefix p s = true ->
  exists l ls, split_nl s = l :: ls /\ String.prefix p l = true.
Proof.
  revert s. induction p as [|x p IH]; intros s Hp H.
  - pose proof (split_nl_nonempty s) as Hne.
    destruct (split_nl s) as [|l ls]; [contradiction|].
    exists l, ls. split; [reflexivity | now destruct l].
  - destruct s as [|c s]; [discriminate|].
    rewrite prefix_cons in H. apply andb_true_iff in H as [Hx H].
    apply Ascii.eqb_eq in Hx as <-.
    rewrite has_nl_cons in Hp. apply orb_false_iff in Hp as [Hx Hp].
    destruct (IH s Hp H) as (l & ls & E & Hl).
    exists (String x l), ls. cbn [split_nl]. rewrite Hx, E.
    split; [reflexivity|]. rewrite prefix_cons, Ascii.eqb_refl. exact Hl.
Qed.

(** A text without line break that occurs in [s] occurs in a line of it. *)
Lemma contains_some_line (p s : string) :
  has_nl p = false -> contains p s = true ->
  exists l, In l (split_nl s) /\ contains p l = true.
Proof.
  intros Hp. induction s as [|c s IH]; intros H.
  - exists "". split; [now left | exact H].
  - cbn [contains] in H. apply orb_true_iff in H as [H|H].
    + destruct (prefix_first_line p _ Hp H) as (l & ls & E & Hl).
      exists l. rewrite E. split; [now left|].
      destruct l; cbn [contains]; now rewrite Hl.
    + destruct (IH H) as (l & Hin & Hl). cbn [split_nl].
      destruct (Ascii.eqb c nl).
      * exists l. split; [now right | exact Hl].
      * destruct (split_nl s) as [|l0 ls]; [contradiction|].
        destruct Hin as [->|Hin].
        -- exists (String c l). split; [now left|].
           cbn [contains]. rewrite Hl. apply orb_true_r.
        -- exists l. split; [now right | exact Hl].
Qed.

Lemma mentions_some_line (s : string) :
  mentions_version s = true ->
  exists l, In l (split_nl s) /\ mentions_version l = true.
Proof.
  unfold mentions_version. intros H.
  assert (Hl : exists l', In l' (split_nl (lower s))
                          /\ (contains "aegisub" l' || contains "version" l') = true).
  { apply orb_true_iff in H as [H|H];
      apply contains_some_line in H; try reflexivity;
      destruct H as (l' & Hin & Hl'); exists l'; rewrite Hl';
      (split; [assumption|]); [reflexivity | apply orb_true_r]. }
  destruct Hl as (l' & Hin & Hl'). rewrite lower_split_nl in Hin.
  apply in_map_iff in Hin as (l & <- & Hin). now exists l.
Qed.

Lemma first_version_line_some (lines : list string) (v : string) :
  first_version_line lines = Some v ->
  exists line, In line lines /\ mentions_version line = true /\ v = strip line.
Proof.
  induction lines as [|l ls IH]; [discriminate|].
  cbn [first_version_line]. destruct (mentions_version l) eqn:E.
  - intros [= <-]. exists l. auto using in_eq.
  - intros H. destruct (IH H) as (line & Hin & Hm & Hv).
    exists line. auto using in_cons.
Qed.

Lemma first_version_line_finds (lines : list string) (line : string) :
  In line lines -> mentions_version line = true ->
  exists v, first_version_line lines = Some v.
Proof.
  induction lines as [|l ls IH]; [contradiction|].
  cbn [first_version_line]. intros [->|Hin] Hm.
  - rewrite Hm. eauto.
  - destruct (mentions_version l); eauto.
Qed.

(** The inner loop of [get_version] always finds a line once the whole
    output passed the test. *)
Lemma output_has_version_line (output : string) :
  mentions_version output = true ->
  exists v, first_version_line (split_nl (strip output)) = Some v.
Proof.
  intros H. apply mentions_strip, mentions_some_line in H as (l & Hin & Hl).
  exact (first_version_line_finds _ l Hin Hl).
Qed.

Lemma try_flags_found (run : string -> run_result) (flags : list string)
                      (v : string) :
  try_flags run flags = Found_line v ->
  exists flag out err line,
    In flag flags /\ run flag = Completed out err
    /\ In line (split_nl (strip (out ++ err)%string))
    /\ mentions_version line = true /\ v = strip line.
Proof.
  induction flags as [|flag rest IH]; [discriminate|].
  cbn [try_flags]. intros H.
  assert (Hrest : try_flags run rest = Found_line v ->
                  exists flag0 out err line,
                    In flag0 (flag :: rest) /\ run flag0 = Completed out err
                    /\ In line (split_nl (strip (out ++ err)%string))
                    /\ mentions_version line = true /\ v = strip line).
  { intros H'. destruct (IH H') as (f & out & err & line & Hin & R).
    exists f, out, err, line. split; [now right | exact R]. }
  destruct (run flag) as [out err| | |e] eqn:Er; auto; [|discriminate].
  destruct (mentions_version (out ++ err)%string); auto.
  destruct (first_version_line _) as [line|] eqn:Ef; auto.
  injection H as <-.
  destruct (first_version_line_some _ _ Ef) as (l & Hin & Hm & ->).
  exists flag, out, err, l. auto using in_eq.
Qed.

Lemma try_flags_finds (run : string -> run_result) (flags : list string) :
  (forall flag e, In flag flags -> run flag <> OtherError e) ->
  (exists flag out err, In flag flags /\ run flag = Completed out err
                        /\ mentions_version (out ++ err)%string = true) ->
  exists v, try_flags run flags = Found_line v.
Proof.
  induction flags as [|flag rest IH]; intros Hno (f & out & err & Hin & Er & Hm);
    [contradiction|].
  assert (Hrest : (exists f0 out0 err0, In f0 rest /\ run f0 = Completed out0 err0
                     /\ mentions_version (out0 ++ err0)%string = true) ->
                  exists v, try_flags run rest = Found_line v).
  { apply IH. intros f0 e H0. apply Hno. now right. }
  cbn [try_flags]. destruct (run flag) as [o e'| | |e'] eqn:E.
  - destruct (mentions_version (o ++ e')%string) eqn:Em.
    + destruct (output_has_version_line _ Em) as [v ->]. eauto.
    + apply Hrest. destruct Hin as [<-|Hin]; [congruence | eauto 6].
  - apply Hrest. destruct Hin as [<-|Hin]; [congruence | eauto 6].
  - apply Hrest. destruct Hin as [<-|Hin]; [congruence | eauto 6].
  - exfalso. exact (Hno flag e' (in_eq _ _) E).
Qed.

(** X23: Aegisub counts as available exactly when a non-empty path was
    given or [shutil.which] accepts one of the six standard locations; the
    path that is kept is the given one, taken without any check, or an
    accepted standard location. *)
Theorem available_iff_given_or_found
        (given : option string) (which : string -> bool) :
  (is_available (init given which) = true <->
   (exists p, given = Some p /\ p <> "")
   \/ (exists p, In p possible_paths /\ which p = true))
  /\ (forall p, p <> "" -> init (Some p) which = Some p)
  /\ (forall p, init given which = Some p ->
        given = Some p \/ (In p possible_paths /\ which p = true)).
Proof.
  unfold init, _find_aegisub. split; [|split].
  - destruct given as [[|c g]|]; cbn [nonempty is_available].
    + destruct (find which possible_paths) as [p|] eqn:E; cbn [is_available].
      * apply find_some in E. split; [eauto | reflexivity].
      * split; [discriminate|].
        intros [(p & [= <-] & Hp)|(p & Hin & Hp)]; [now elim Hp|].
        pose proof (find_none _ _ E p Hin). congruence.
    + split; [|reflexivity]. intros _. left. now exists (String c g).
    + destruct (find which possible_paths) as [p|] eqn:E; cbn [is_available].
      * apply find_some in E. split; [eauto | reflexivity].
      * split; [discriminate|].
        intros [(p & [=] & _)|(p & Hin & Hp)].
        pose proof (find_none _ _ E p Hin). congruence.
  - intros [|c p] Hp; [now elim Hp | reflexivity].
  - intros p. destruct given as [[|c g]|]; cbn [nonempty].
    + intros E. right. now apply find_some in E.
    + intros [= <-]. now left.
    + intros E. right. now apply find_some in E.
Qed.

Lemma available_iff_given_or_found_witness :
  "/opt/aegisub"%string <> ""%string
  /\ init (Some "/opt/aegisub"%string) (fun _ => false) = Some "/opt/aegisub"%string.
Proof.
  split; [discriminate|].
  apply (proj1 (proj2 (available_iff_given_or_found None (fun _ => false)))).
  discriminate.
Defined.

(** X24: whether Aegisub could be launched has no influence on a run:
    [process_video_file] does not look at what [open_for_styling] returns,
    so with a missing subtitle file or a failed launch it waits for Enter
    and merges exactly as after a successful one. *)
Theorem launch_result_is_ignored
        (w : world) (aegisub_path : option string)
        (isfile1 isfile2 : string -> bool)
        (popen1 popen2 : string -> string -> outcome unit)
        (a : arguments) (st : run_state) :
  process_video_file (with_aegisub w aegisub_path isfile1 popen1) a st
  = process_video_file (with_aegisub w aegisub_path isfile2 popen2) a st.
Proof.
  (* the two runs differ only in the value that [open_for_styling]
     returns, which the bind of [style_and_merge] drops *)
  unfold process_video_file, process_body, style_and_merge. reflexivity.
Qed.

(** X25: whatever [get_version] returns is one line of what the program
    printed for one of the three flags, without the whitespace around it:
    it mentions 'aegisub' or 'version' (in any case), has no line break
    and no whitespace at either end. *)
Theorem version_is_a_stripped_output_line
        (aegisub_path : option string)
        (run : string -> string -> run_result) (v : string) :
  get_version aegisub_path run = Some v ->
  exists program flag out err,
    aegisub_path = Some program
    /\ In flag version_flags
    /\ run program flag = Completed out err
    /\ Substring v (out ++ err)%string
    /\ mentions_version v = true
    /\ strip v = v
    /\ has_nl v = false.
Proof.
  unfold get_version. destruct aegisub_path as [program|]; [|discriminate].
  destruct (try_flags (run program) version_flags) as [line| |e] eqn:E;
    [|discriminate|discriminate].
  intros [= <-].
  destruct (try_flags_found _ _ _ E) as (flag & out & err & l & Hin & Er & Hl & Hm & ->).
  exists program, flag, out, err. repeat split; try assumption.
  - apply (substring_trans _ l); [apply strip_substring|].
    apply (substring_trans _ (strip (out ++ err)%string));
      [now apply line_substring | apply strip_substring].
  - now apply mentions_strip.
  - apply strip_idem.
  - apply (has_nl_substring _ l); [apply strip_substring|].
    pose proof (split_nl_no_nl (strip (out ++ err)%string)) as Hall.
    rewrite Forall_forall in Hall. now apply Hall.
Qed.

Lemma version_is_a_stripped_output_line_witness :
  exists program flag out err,
    Some "aegisub"%string = Some program
    /\ In flag version_flags
    /\ (fun _ flag : string =>
          if String.eqb flag "-v" then Completed "" "
   Aegisub 3.2.2  
usage: aegisub [file]
"%string
          else TimeoutExpired) program flag = Completed out err
    /\ Substring "Aegisub 3.2.2" (out ++ err)%string
    /\ mentions_version "Aegisub 3.2.2" = true
    /\ strip "Aegisub 3.2.2" = "Aegisub 3.2.2"%string
    /\ has_nl "Aegisub 3.2.2" = false.
Proof.
  apply (version_is_a_stripped_output_line (Some "aegisub"%string)
           (fun _ flag : string =>
              if String.eqb flag "-v" then Completed "" "
   Aegisub 3.2.2  
usage: aegisub [file]
"%string
              else TimeoutExpired)).
  reflexivity.
Defined.

(** X26: when no call of the program fails with an unexpected error and
    the output for one of the three flags mentions 'aegisub' or 'version',
    [get_version] returns a line: the inner loop over the lines never comes
    up empty after the whole output passed the test. *)
Theorem version_found_when_output_mentions_it
        (program : string) (run : string -> string -> run_result) :
  (forall flag e, In flag version_flags -> run program flag <> OtherError e) ->
  (exists flag out err,
     In flag version_flags /\ run program flag = Completed out err
     /\ mentions_version (out ++ err)%string = true) ->
  exists v, get_version (Some program) run = Some v.
Proof.
  intros Hno Hsome. unfold get_version.
  destruct (try_flags_finds (run program) version_flags Hno Hsome) as [v ->].
  now exists v.
Qed.

Lemma version_found_when_output_mentions_it_witness :
  exists v,
    get_version (Some "aegisub"%string)
      (fun _ flag : string =>
         if String.eqb flag "--help" then Completed "Usage: AEGISUB [file]" ""
         else CalledProcessError)
    = Some v.
Proof.
  apply (version_found_when_output_mentions_it "aegisub"
           (fun _ flag : string =>
              if String.eqb flag "--help" then Completed "Usage: AEGISUB [file]" ""
              else CalledProcessError)).
  - intros flag e [<-|[<-|[<-|[]]]]; discriminate.
  - exists "--help"%string, "Usage: AEGISUB [file]"%string, ""%string.
    split; [right; right; now left|]. split; reflexivity.
Defined.

End AegisubFacts.

(* ================================================================= *)
(** ** Output paths *)

Module PathFacts.
Import PyStr Factory Pipeline Universal PurePath FileUtils Notions StrFacts
       Dispatch RegistryFacts RunFacts.

Lemma length_app (a b : string) :
  String.length (a ++ b) = (String.length a + String.length b)%nat.
Proof. induction a as [|c a IH]; cbn; [reflexivity | now rewrite IH]. Qed.

Lemma has_char_app (c : ascii) (a b : string) :
  has_char c (a ++ b) = has_char c a || has_char c b.
Proof.
  induction a as [|x a IH]; [reflexivity|].
  cbn [append has_char]. now rewrite IH, orb_assoc.
Qed.

Lemma take_app_length (a b : string) : take (String.length a) (a ++ b) = a.
Proof. induction a as [|c a IH]; cbn; [now destruct b | now rewrite IH]. Qed.

Lemma drop_app_length (a b : string) : drop (String.length a) (a ++ b) = b.
Proof. induction a as [|c a IH]; cbn; [now destruct b | exact IH]. Qed.

Lemma rfind_ge (c : ascii) (s : string) : (-1 <= rfind c s)%Z.
Proof.
  induction s as [|x s IH]; cbn [rfind]; [lia|].
  destruct (0 <=? rfind c s)%Z eqn:E; [lia|].
  destruct (Ascii.eqb x c); lia.
Qed.

Lemma rfind_lt (c : ascii) (s : string) :
  (rfind c s < Z.of_nat (String.length s))%Z.
Proof.
  induction s as [|x s IH]; cbn [rfind String.length]; [lia|].
  destruct (0 <=? rfind c s)%Z eqn:E; [lia|].
  destruct (Ascii.eqb x c); lia.
Qed.

Lemma rfind_neg_absent (c : ascii) (s : string) :
  (rfind c s < 0)%Z -> has_char c s = false.
Proof.
  induction s as [|x s IH]; [reflexivity|].
  cbn [rfind has_char]. pose proof (rfind_ge c s).
  destruct (0 <=? rfind c s)%Z eqn:E; [lia|].
  apply Z.leb_gt in E. destruct (Ascii.eqb x c); [lia|]. auto.
Qed.

(** At the index [rfind] gives stands the last occurrence. *)
Lemma rfind_drop (c : ascii) (s : string) :
  (0 <= rfind c s)%Z ->
  exists ext, drop (Z.to_nat (rfind c s)) s = String c ext
              /\ has_char c ext = false.
Proof.
  induction s as [|x s IH]; cbn [rfind]; [lia|].
  destruct (0 <=? rfind c s)%Z eqn:E.
  - intros _. apply Z.leb_le in E. destruct (IH E) as (ext & Hd & He).
    exists ext. split; [|assumption].
    replace (Z.to_nat (rfind c s + 1)) with (S (Z.to_nat (rfind c s))) by lia.
    exact Hd.
  - apply Z.leb_gt in E. destruct (Ascii.eqb_spec x c) as [->|_]; [|lia].
    intros _. exists s. split; [reflexivity | now apply rfind_neg_absent].
Qed.

Lemma rfind_app_last (c : ascii) (a ext : string) :
  has_char c ext = false ->
  rfind c (a ++ String c ext) = Z.of_nat (String.length a).
Proof.
  intros He. induction a as [|x a IH]; cbn [append rfind String.length].
  - rewrite (rfind_absent c ext He). cbn. now rewrite Ascii.eqb_refl.
  - rewrite IH. destruct (0 <=? Z.of_nat (String.length a))%Z eqn:E; [lia|].
    apply Z.leb_gt in E. lia.
Qed.

Lemma split_on_nonempty (sep : ascii) (s : string) : split_on sep s <> [].
Proof.
  induction s as [|c s IH]; cbn [split_on]; [discriminate|].
  destruct (Ascii.eqb c sep); [discriminate|].
  destruct (split_on sep s); discriminate.
Qed.

Lemma split_on_no_sep (sep : ascii) (s : string) :
  Forall (fun l => has_char sep l = false) (split_on sep s).
Proof.
  induction s as [|c s IH]; cbn [split_on].
  - now constructor.
  - destruct (Ascii.eqb c sep) eqn:E.
    + now constructor.
    + destruct (split_on sep s) as [|l ls]; inversion IH; subst;
        constructor; auto; cbn [has_char]; now rewrite E.
Qed.

Lemma split_on_part (sep : ascii) (l : string) :
  has_char sep l = false -> split_on sep l = [l].
Proof.
  induction l as [|c l IH]; [reflexivity|].
  cbn [has_char]. intros H. apply orb_false_iff in H as [Hc Hl].
  cbn [split_on]. now rewrite Hc, (IH Hl).
Qed.

Lemma split_on_part_app (sep : ascii) (l rest : string) :
  has_char sep l = false ->
  split_on sep (l ++ String sep rest) = l :: split_on sep rest.
Proof.
  induction l as [|c l IH]; intros H.
  - cbn [append split_on]. now rewrite Ascii.eqb_refl.
  - cbn [has_char] in H. apply orb_false_iff in H as [Hc Hl].
    cbn [append split_on]. now rewrite Hc, (IH Hl).
Qed.

Lemma join_on_cons2 (sep : ascii) (a b : string) (r : list string) :
  join_on sep (a :: b :: r) = a ++ String sep (join_on sep (b :: r)).
Proof. reflexivity. Qed.

Lemma split_join_on (sep : ascii) (parts : list string) :
  parts <> [] ->
  Forall (fun l => has_char sep l = false) parts ->
  split_on sep (join_on sep parts) = parts.
Proof.
  induction parts as [|l ls IH]; [contradiction|].
  intros _ H. inversion H as [|? ? Hl Hls]; subst.
  destruct ls as [|l' ls].
  - unfold join_on. cbn [String.concat]. now apply split_on_part.
  - rewrite join_on_cons2, split_on_part_app by assumption.
    f_equal. apply IH; [discriminate | assumption].
Qed.

Lemma filter_parts (parts : list string) :
  Forall component parts -> filter is_part parts = parts.
Proof.
  induction 1 as [|x l [Hx _] _ IH]; [reflexivity|].
  cbn [filter]. now rewrite Hx, IH.
Qed.

Lemma component_head (x : string) :
  component x -> exists c r, x = String c r /\ Ascii.eqb c "/" = false.
Proof.
  intros [Hp Hs]. destruct x as [|c r]; [discriminate|].
  cbn [has_char] in Hs. apply orb_false_iff in Hs as [Hc _]. now exists c, r.
Qed.

(** The joined components are empty, for no component, or begin with a
    character that is not a slash. *)
Lemma join_head (parts : list string) :
  Forall component parts ->
  (parts = [] /\ join_on "/" parts = "")
  \/ exists c r, join_on "/" parts = String c r /\ Ascii.eqb c "/" = false.
Proof.
  intros H. destruct H as [|x l Hx Hl]; [now left|]. right.
  destruct (component_head x Hx) as (c & r & -> & Hc).
  destruct l as [|y l].
  - now exists c, r.
  - rewrite join_on_cons2. cbn [append]. eauto.
Qed.

Lemma parts_of_join (parts : list string) :
  Forall component parts ->
  filter is_part (split_on "/" (join_on "/" parts)) = parts.
Proof.
  intros H. destruct parts as [|x l]; [reflexivity|].
  rewrite split_join_on; [now apply filter_parts | discriminate |].
  eapply Forall_impl; [|exact H]. now intros y [_ Hy].
Qed.

(** Parsing the text of a path gives the path back. *)
Lemma parse_to_str (p : path) : well_formed p -> parse (to_str p) = p.
Proof.
  destruct p as [r t]. intros [Hroot Ht]. cbn [PurePath.root PurePath.tail] in *.
  unfold to_str. cbn [PurePath.root PurePath.tail].
  pose proof (parts_of_join t Ht) as Hparts.
  destruct (join_head t Ht) as [[-> Hj]|(c & j & Hj & Hc)];
    destruct Hroot as [-> | [-> | ->]]; rewrite Hj in *.
  all: cbn [append String.eqb Ascii.eqb Bool.eqb].
  all: try reflexivity.
  all: unfold parse; cbn [splitroot Ascii.eqb Bool.eqb]; rewrite Hc;
    now rewrite Hparts.
Qed.

Lemma splitroot_root (s : string) :
  fst (splitroot s) = "" \/ fst (splitroot s) = "/" \/ fst (splitroot s) = "//".
Proof.
  destruct s as [|c1 [|c2 [|c3 s]]]; cbn [splitroot];
    repeat match goal with
           | |- context [Ascii.eqb ?c "/"] => destruct (Ascii.eqb c "/")
           end; cbn [fst]; auto.
Qed.

Lemma parse_well_formed (s : string) : well_formed (parse s).
Proof.
  unfold parse. pose proof (splitroot_root s) as Hr.
  destruct (splitroot s) as [r rel]. split; [exact Hr|].
  cbn [PurePath.tail]. apply Forall_forall. intros x Hx.
  apply filter_In in Hx as [Hin Hp]. split; [assumption|].
  pose proof (split_on_no_sep "/" rel) as Hall.
  rewrite Forall_forall in Hall. now apply Hall.
Qed.

Lemma parse_component (x : string) :
  component x -> parse x = mk_path "" [x].
Proof.
  intros Hx. destruct (component_head x Hx) as (c & r & -> & Hc).
  unfold parse. cbn [splitroot]. rewrite Hc.
  rewrite split_on_part by apply Hx. cbn [filter].
  destruct Hx as [-> _]. reflexivity.
Qed.

Lemma stem_suffix (p : path) : stem p ++ suffix p = name p.
Proof.
  unfold stem, suffix. destruct (has_suffix (name p)).
  - apply take_drop.
  - apply append_nil_r.
Qed.

Lemma name_no_slash (p : path) :
  well_formed p -> has_char "/" (name p) = false.
Proof.
  intros [_ Ht]. unfold name.
  destruct (tail p) as [|x l]; [reflexivity|].
  assert (Hin : In (last (x :: l) "") (x :: l)).
  { rewrite (app_removelast_last "" (l := x :: l)) at 2 by discriminate.
    apply in_or_app. right. now left. }
  rewrite Forall_forall in Ht. now apply Ht in Hin as [_ H].
Qed.

Lemma Forall_removelast {A : Type} (P : A -> Prop) (l : list A) :
  Forall P l -> Forall P (removelast l).
Proof.
  induction 1 as [|x l Hx Hl IH]; [constructor|].
  cbn [removelast]. destruct l; [constructor | now constructor].
Qed.

Lemma is_part_iff (x : string) : is_part x = true <-> x <> "" /\ x <> ".".
Proof.
  unfold is_part. rewrite andb_true_iff, !negb_true_iff.
  split; intros [H1 H2].
  - split; intros ->; discriminate.
  - split; apply String.eqb_neq; assumption.
Qed.

Lemma length_zero (x : string) : String.length x = 0%nat -> x = "".
Proof. now destruct x. Qed.

(** The new file name is one component. *)
Lemma new_name_component (p : path) (sfx : string) :
  well_formed p -> component sfx ->
  component (stem p ++ sfx ++ suffix p).
Proof.
  intros Hp [Hpart Hslash]. apply is_part_iff in Hpart as [Hne Hdot].
  assert (Hlen : (0 < String.length sfx)%nat).
  { destruct sfx; [now elim Hne | cbn; lia]. }
  split.
  - apply is_part_iff. split.
    + intros E. apply (f_equal String.length) in E.
      rewrite !length_app in E. cbn in E. lia.
    + intros E. pose proof (f_equal String.length E) as L.
      rewrite !length_app in L. cbn in L.
      assert (H1 : stem p = "") by (apply length_zero; lia).
      assert (H2 : suffix p = "") by (apply length_zero; lia).
      rewrite H1, H2, append_nil_r in E. cbn [append] in E. contradiction.
  - pose proof (name_no_slash p Hp) as Hn.
    rewrite <- stem_suffix, has_char_app in Hn.
    apply orb_false_iff in Hn as [H1 H2].
    now rewrite !has_char_app, H1, H2, Hslash.
Qed.

Lemma parent_parts (p : path) :
  mk_path (root p) (tail (parent p)) = parent p.
Proof. destruct p as [r [|x t]]; reflexivity. Qed.

Lemma parent_snoc (r : string) (init : list string) (x : string) :
  parent (mk_path r (init ++ [x])) = mk_path r init.
Proof.
  unfold parent. cbn [root tail].
  destruct (init ++ [x])%list eqn:E; [now destruct init|].
  rewrite <- E. now rewrite removelast_last.
Qed.

Lemma name_snoc (r : string) (init : list string) (x : string) :
  name (mk_path r (init ++ [x])) = x.
Proof. unfold name. cbn [tail]. apply last_last. Qed.

(** The path [generate_output_path] returns, parsed again: the parent of
    the input and the new file name. *)
Lemma output_parsed (input_path sfx : string) :
  component sfx ->
  parse (generate_output_path input_path sfx)
  = mk_path (root (parse input_path))
      (tail (parent (parse input_path))
       ++ [stem (parse input_path) ++ sfx ++ suffix (parse input_path)]).
Proof.
  intros Hs. unfold generate_output_path. cbv zeta.
  pose proof (parse_well_formed input_path) as Hwf.
  set (p := parse input_path) in *.
  pose proof (new_name_component p sfx Hwf Hs) as Hnew.
  unfold truediv. rewrite (parse_component _ Hnew). cbn [root tail].
  assert (Hroot : root (parent p) = root p).
  { unfold parent. now destruct (tail p). }
  rewrite Hroot. apply parse_to_str. split; cbn [root tail].
  - apply Hwf.
  - apply Forall_app. split; [|now constructor].
    unfold parent. destruct Hwf as [_ Ht].
    destruct (tail p) eqn:E; cbn [tail]; [now rewrite E|].
    now apply Forall_removelast.
Qed.

(** Any [Merged] action of styling and merging is the merge of the input
    with the subtitle file into the output path. *)
Lemma merged_inversion (w : world) (a : arguments)
      (sub out : string) (c : option config_value)
      (st st' : run_state) (r : flow bool) :
  style_and_merge w a sub out c st = (r, st') ->
  exists new,
    events st' = (events st ++ new)%list
    /\ forall i s o, In (Merged i s o) new ->
          i = input_video a /\ s = sub /\ o = out.
Proof.
  unfold style_and_merge, bind, call, logger, does, when_, ret, say, emit.
  destruct st as [l ev]. cbn [log events].
  destruct (manual_styling a);
    [destruct (aegisub_is_available w) as [[]|];
       [destruct (aegisub_open_for_styling w sub);
          [destruct (press_enter w)|]|..]|];
    try (destruct c as [x|]; [destruct (truthy x) eqn:Ex|]);
    try (destruct (merge_video_with_subtitles w (input_video a) sub out)
           as [[]|] eqn:Em);
    intros [= <- <-]; cbn [events];
    eexists; (split; [rewrite <- ?app_assoc; cbn [app]; try reflexivity;
                      now rewrite app_nil_r|]);
    cbn [In]; intros;
    repeat match goal with
           | H : _ \/ _ |- _ => destruct H
           | H : False |- _ => destruct H
           | H : Merged _ _ _ = Merged _ _ _ |- _ => injection H as <- <- <-
           end;
    try discriminate; auto.
Qed.

Lemma bind_next {A B : Type} (m : M A) (k : A -> M B)
      (st st1 : run_state) (x : B) :
  bind m k st = (Next x, st1) ->
  exists y s, m st = (Next y, s) /\ k y s = (Next x, st1).
Proof.
  unfold bind. destruct (m st) as [[y|b|e] s]; intros H;
    [eauto | discriminate | discriminate].
Qed.

(** The output path the first phases settle: the one asked for, or the
    one [generate_output_path] returns. *)
Lemma prepare_output (w : world) (a : arguments) (st st1 : run_state)
      (paths : string * string) :
  prepare_subtitle w a st = (Next paths, st1) ->
  match nonempty (output_video a) with
  | Some o => snd paths = o
  | None => Pipeline.generate_output_path w (input_video a) = Returns (snd paths)
  end.
Proof.
  unfold prepare_subtitle. intros H.
  apply bind_next in H as (_ & s1 & _ & H).
  apply bind_next in H as (ts & s2 & _ & H).
  apply bind_next in H as (_ & s3 & _ & H).
  apply bind_next in H as (_ & s4 & _ & H).
  apply bind_next in H as (temp_dir & s5 & _ & H).
  apply bind_next in H as (output & s6 & Hout & H).
  apply bind_next in H as (tracks & s7 & _ & H).
  apply bind_next in H as (_ & s8 & _ & H).
  apply bind_next in H as (t & s9 & _ & H).
  cbv zeta in H.
  apply bind_next in H as (extracted & s10 & _ & H).
  apply bind_next in H as (_ & s11 & _ & H).
  assert (Hsnd : snd paths = output).
  { destruct (String.eqb _ "ass").
    - now injection H as <- _.
    - apply bind_next in H as (converted & s12 & _ & H).
      apply bind_next in H as (_ & s13 & _ & H).
      now injection H as <- _. }
  rewrite Hsnd. destruct (nonempty (output_video a)) as [o|].
  - now injection Hout as <- _.
  - unfold call in Hout.
    destruct (Pipeline.generate_output_path w (input_video a));
      [now injection Hout as <- _ | discriminate].
Qed.

(** The file name of the output path is longer than the input's. *)
Lemma new_name_differs (input_path sfx : string) :
  component sfx ->
  name (parse (generate_output_path input_path sfx)) <> name (parse input_path).
Proof.
  intros Hs. rewrite (output_parsed input_path sfx Hs), name_snoc.
  intros Hn. rewrite <- (stem_suffix (parse input_path)) in Hn.
  apply (f_equal String.length) in Hn. rewrite !length_app in Hn.
  destruct Hs as [Hpart _]. destruct sfx; [discriminate|]. cbn in Hn. lia.
Qed.

(** X27: on a POSIX system the path [generate_output_path] returns lies in
    the directory of the input, and its file name is the input's with the
    suffix put between stem and extension; this holds for every suffix
    that is a piece of a file name (not empty, not a single dot, without
    slash), such as the [_processed] and [_styled] the program uses. *)
Theorem output_path_in_same_directory (input_path sfx : string) :
  component sfx ->
  parent (parse (generate_output_path input_path sfx))
  = parent (parse input_path)
  /\ name (parse (generate_output_path input_path sfx))
     = stem (parse input_path) ++ sfx ++ suffix (parse input_path).
Proof.
  intros Hs. rewrite (output_parsed input_path sfx Hs).
  rewrite parent_snoc, name_snoc. split; [apply parent_parts | reflexivity].
Qed.

Lemma output_path_in_same_directory_witness :
  parent (parse (generate_output_path "/films/2020/Movie.Part1.mkv" "_processed"))
  = parent (parse "/films/2020/Movie.Part1.mkv")
  /\ name (parse (generate_output_path "/films/2020/Movie.Part1.mkv" "_processed"))
     = stem (parse "/films/2020/Movie.Part1.mkv") ++ "_processed"
       ++ suffix (parse "/films/2020/Movie.Part1.mkv").
Proof.
  apply (output_path_in_same_directory "/films/2020/Movie.Part1.mkv" "_processed").
  split; reflexivity.
Defined.

(** X28: when the input has an extension and the suffix has no dot, the
    output path has the same extension as the input, and its stem is the
    input's stem followed by the suffix. *)
Theorem output_path_keeps_extension (input_path sfx : string) :
  component sfx -> has_char "." sfx = false ->
  suffix (parse input_path) <> "" ->
  suffix (parse (generate_output_path input_path sfx)) = suffix (parse input_path)
  /\ stem (parse (generate_output_path input_path sfx))
     = stem (parse input_path) ++ sfx.
Proof.
  intros Hs Hdot Hext. rewrite (output_parsed input_path sfx Hs).
  set (p := parse input_path) in *.
  pose proof (name_snoc (root p) (tail (parent p))
                (stem p ++ sfx ++ suffix p)) as Hname.
  set (q := mk_path _ _) in *.
  unfold suffix, stem in *. rewrite !Hname. clear Hname.
  set (n := name p) in *.
  destruct (has_suffix n) eqn:Hn; [|now elim Hext].
  unfold has_suffix in Hn. apply andb_true_iff in Hn as [H0 H1].
  apply Z.ltb_lt in H0, H1.
  destruct (rfind_drop "." n) as (ext & Hd & He); [lia|].
  pose proof (take_drop (Z.to_nat (rfind "." n)) n) as Hsplit.
  set (st := take (Z.to_nat (rfind "." n)) n) in *.
  rewrite Hd in *.
  assert (Hlen : String.length n
                 = (String.length st + S (String.length ext))%nat).
  { rewrite <- Hsplit at 1. now rewrite length_app. }
  assert (Hst : Z.of_nat (String.length st) = rfind "." n).
  { pose proof (rfind_lt "." n) as Hlt.
    assert (Hr : rfind "." (st ++ String "." ext) = Z.of_nat (String.length st))
      by now apply rfind_app_last.
    now rewrite Hsplit in Hr. }
  assert (Hnew : st ++ sfx ++ String "." ext = (st ++ sfx) ++ String "." ext)
    by now rewrite append_assoc.
  rewrite Hnew.
  assert (Hr : rfind "." ((st ++ sfx) ++ String "." ext)
               = Z.of_nat (String.length (st ++ sfx)))
    by now apply rfind_app_last.
  unfold has_suffix. rewrite Hr, Nat2Z.id.
  rewrite take_app_length, drop_app_length.
  rewrite !length_app. cbn [String.length].
  replace ((0 <? Z.of_nat (String.length st + String.length sfx))%Z) with true
    by (symmetry; apply Z.ltb_lt; lia).
  replace ((Z.of_nat (String.length st + String.length sfx)
            <? Z.of_nat (String.length st + String.length sfx
                         + S (String.length ext)) - 1)%Z) with true
    by (symmetry; apply Z.ltb_lt; lia).
  split; reflexivity.
Qed.

Lemma output_path_keeps_extension_witness :
  suffix (parse (generate_output_path "clips/Movie.Part1.MKV" "_styled"))
  = suffix (parse "clips/Movie.Part1.MKV")
  /\ stem (parse (generate_output_path "clips/Movie.Part1.MKV" "_styled"))
     = stem (parse "clips/Movie.Part1.MKV") ++ "_styled".
Proof.
  apply (output_path_keeps_extension "clips/Movie.Part1.MKV" "_styled").
  - split; reflexivity.
  - reflexivity.
  - discriminate.
Defined.

(** X29: the path [generate_output_path] returns is never the input path
    itself, whatever the input is: root, empty text, name without
    extension or with trailing slashes. *)
Theorem output_path_differs_from_input (input_path sfx : string) :
  component sfx ->
  generate_output_path input_path sfx <> input_path.
Proof.
  intros Hs E. apply (new_name_differs input_path sfx Hs). now rewrite E.
Qed.

Lemma output_path_differs_from_input_witness :
  generate_output_path "//server/share/" "_processed" <> "//server/share/"%string.
Proof.
  apply (output_path_differs_from_input "//server/share/" "_processed").
  split; reflexivity.
Defined.

(** X30: a run that is given no output path merges into the path
    [generate_output_path] makes from the input, which is never the input
    file itself: every merge of the run reads the input video and writes
    to another path. *)
Theorem merge_never_writes_onto_input
        (w : world) (a : arguments) (st : run_state)
        (i sub out : string) :
  nonempty (output_video a) = None ->
  events st = [] ->
  In (Merged i sub out)
     (events (snd (process_video_file (with_file_manager w) a st))) ->
  i = input_video a
  /\ out = generate_output_path (input_video a) "_processed"
  /\ out <> i.
Proof.
  intros Hnone Hst Hin.
  destruct (run_cases (with_file_manager w) a st)
    as [(_ & He & _)|(paths & st1 & c & st2 & r & st3 &
                      Ep & _ & Es & Hev2 & _ & Hev)].
  - rewrite He, Hst in Hin. destruct Hin as [[=]|[]].
  - apply prepare_output in Ep. rewrite Hnone in Ep.
    cbn [with_file_manager Pipeline.generate_output_path] in Ep.
    injection Ep as Ep.
    destruct (merged_inversion _ _ _ _ _ _ _ _ Es) as (new & Hnew & Hm).
    rewrite Hev, Hnew, Hev2, Hst in Hin. cbn [app] in Hin.
    apply in_app_iff in Hin as [Hin|[[=]|[]]].
    destruct (Hm _ _ _ Hin) as (-> & -> & ->).
    split; [reflexivity|]. split; [now rewrite Ep|].
    rewrite <- Ep. intros E.
    apply (new_name_differs (input_video a) "_processed"); [now split|].
    now rewrite E.
Qed.

Lemma merge_never_writes_onto_input_witness :
  "movie.mkv"%string = input_video (mk_arguments "movie.mkv" None None None None false)
  /\ "movie_processed.mkv"%string = generate_output_path "movie.mkv" "_processed"
  /\ "movie_processed.mkv"%string <> "movie.mkv"%string.
Proof.
  apply (merge_never_writes_onto_input Samples.all_fine_but_style_file
           (mk_arguments "movie.mkv" None None None None false)
           (mk_run_state [] [])
           "movie.mkv" "/tmp/subtitle_processor_1/extracted_2.ass"
           "movie_processed.mkv").
  - reflexivity.
  - reflexivity.
  - vm_compute. left. reflexivity.
Defined.

End PathFacts.
